(** * Load-Balancer: backend pool, selection, health tracking and dispatch

    A shallow embedding of the Go program [main.go] (backend objects, the
    three selection algorithms, the per-request dispatcher and the health
    probe) together with the sibling constructor of [internal/proxy], and
    the properties of the design document checked against it.

    Conventions of the embedding:
    - Go's [int32]/[int64] are [Z] with the two's-complement wrap written
      out ([int32], [int64] below); Go's [%] truncates towards zero and is
      [Z.rem].
    - The pool [lb.servers] is the slice that [main] builds: entry [i] is a
      non-nil pointer to the [i]-th backend object.  A [*simpleServer]
      pointer is therefore an index into the pool, [None] being the nil
      pointer.
    - Console output ([println], [fmt.Printf], [log.Println]), the mutexes
      and the Prometheus gauges do not influence any value computed here
      and are left out, except where a property speaks about them
      (the output of [handleErr], the request log, the request counter). *)

From Stdlib Require Import Ascii.
From stdpp Require Import base list strings numbers.

Local Open Scope Z_scope.

(** ** Machine integers *)

Definition int32 (x : Z) : Z := (x + 2147483648) mod 4294967296 - 2147483648.
Definition int64 (x : Z) : Z :=
  (x + 9223372036854775808) mod 18446744073709551616 - 9223372036854775808.

(** [int32(^uint32(0) >> 1)], the largest [int32]. *)
Definition MaxInt32 : Z := 2147483647.

Definition StatusOK : Z := 200.
Definition StatusServiceUnavailable : Z := 503.

(** ** Results of a call: normal return, run-time panic, or a loop that has
    not finished within the steps granted to it. *)

Inductive Outcome (A : Type) : Type :=
| Returns (a : A)
| Panics (msg : string)
| OutOfFuel.
Arguments Returns {A} a.
Arguments Panics {A} msg.
Arguments OutOfFuel {A}.

(** ** Data model *)

(** [*url.URL] as produced by [url.Parse]; only its presence matters. *)
Inductive URL : Type := mkURL (raw : string).

(** [type simpleServer struct].  [proxy] keeps the target handed to
    [httputil.NewSingleHostReverseProxy] ([None] for a nil target). *)
Record simpleServer : Type := mkSimpleServer {
  addr : string;
  proxy : option URL;
  activeConns : Z;   (* int32 *)
  alive : bool;
  requests : Z       (* int64 *)
}.

(** A value of the interface type [Server]: the nil interface, or an
    interface holding a [*simpleServer], which may itself be the nil
    pointer.  In Go only the first one compares equal to [nil]. *)
Inductive Server : Type :=
| Server_nil
| Server_simple (p : option nat).

(** [targetServer == nil] *)
Definition Server_eq_nil (s : Server) : bool :=
  match s with Server_nil => true | Server_simple _ => false end.

(** The design document's NONE: the selector hands back no backend. *)
Definition is_NONE (s : Server) : bool :=
  match s with
  | Server_nil | Server_simple None => true
  | Server_simple (Some _) => false
  end.

Record LoadBalancer : Type := mkLoadBalancer {
  servers : list simpleServer;
  port : string;
  algorithm : string
}.

Definition newLoadBalancer (srvs : list simpleServer) (p algo : string) : LoadBalancer :=
  {| servers := srvs; port := p; algorithm := algo |}.

(** ** Backend methods *)

Definition increment (s : simpleServer) : simpleServer :=
  {| addr := addr s; proxy := proxy s;
     activeConns := int32 (activeConns s + 1);
     alive := alive s;
     requests := int64 (requests s + 1) |}.

Definition decrement (s : simpleServer) : simpleServer :=
  {| addr := addr s; proxy := proxy s;
     activeConns := int32 (activeConns s + -1);
     alive := alive s;
     requests := requests s |}.

Definition getActiveConns (s : simpleServer) : Z := activeConns s.
Definition Address (s : simpleServer) : string := addr s.
Definition isAlive (s : simpleServer) : bool := alive s.

(** ** Selector *)

(** The body of [for i := range total] in [getNextRoundRobinServer];
    [n] counts the iterations that remain.  An index outside the slice is a
    run-time panic. *)
Fixpoint rrScan (srvs : list simpleServer) (total start i : Z) (n : nat)
  : Outcome Server :=
  match n with
  | O => Returns Server_nil
  | S n' =>
      let index := Z.rem (start + i) total in
      if (index <? 0) || (total <=? index) then Panics "index out of range"
      else match srvs !! Z.to_nat index with
           | None => Panics "index out of range"
           | Some s =>
               if isAlive s then Returns (Server_simple (Some (Z.to_nat index)))
               else rrScan srvs total start (i + 1) n'
           end
  end.

(** [getNextRoundRobinServer], threading the global [rrCounter]. *)
Definition getNextRoundRobinServer (rrCounter : Z) (lb : LoadBalancer)
  : Z * Outcome Server :=
  let total := Z.of_nat (length (servers lb)) in
  if total =? 0 then (rrCounter, Returns Server_nil)
  else
    let c := int32 (rrCounter + 1) in          (* atomic.AddInt32(&rrCounter, 1) *)
    let d := int32 total in                    (* int32(total) *)
    if d =? 0 then (c, Panics "integer divide by zero")
    else
      let start := Z.rem c d in
      (c, rrScan (servers lb) total start 0 (length (servers lb))).

(** The first loop of [getLeastConnServer]: [i] is the position of the head
    of [srvs] in the pool, [selected] and [min] are the loop variables. *)
Fixpoint leastConnScan (srvs : list simpleServer) (i : nat)
    (selected : option nat) (min : Z) : option nat :=
  match srvs with
  | [] => selected
  | srv :: rest =>
      if isAlive srv then
        let c := getActiveConns srv in
        if c <? min then leastConnScan rest (S i) (Some i) c
        else leastConnScan rest (S i) selected min
      else leastConnScan rest (S i) selected min
  end.

(** [getLeastConnServer] returns its local [selected *simpleServer]
    converted to [Server]: always an interface holding a pointer. *)
Definition getLeastConnServer (lb : LoadBalancer) : Server :=
  Server_simple (leastConnScan (servers lb) 0%nat None MaxInt32).

(** [rand.Intn(n)] on the raw value [raw] drawn from the generator. *)
Definition Intn (raw : nat) (n : Z) : Outcome Z :=
  if n <=? 0 then Panics "invalid argument to Intn"
  else Returns (Z.of_nat raw mod n).

(** [getRandomServer]: [for { ... }] without exit condition other than an
    alive sample.  [rng k] is the [k]-th raw draw of the generator and
    [fuel] bounds the iterations that are simulated. *)
Fixpoint getRandomServer (fuel : nat) (rng : nat -> nat) (k : nat)
    (lb : LoadBalancer) : Outcome Server :=
  match fuel with
  | O => OutOfFuel
  | S fuel' =>
      match Intn (rng k) (Z.of_nat (length (servers lb))) with
      | Returns j =>
          match servers lb !! Z.to_nat j with
          | None => Panics "index out of range"
          | Some server =>
              if isAlive server then Returns (Server_simple (Some (Z.to_nat j)))
              else getRandomServer fuel' rng (S k) lb
          end
      | Panics m => Panics m
      | OutOfFuel => OutOfFuel
      end
  end.

(** [getNextAvailableSever]: the [switch] on the configured algorithm. *)
Definition getNextAvailableSever (fuel : nat) (rng : nat -> nat)
    (rrCounter : Z) (lb : LoadBalancer) : Z * Outcome Server :=
  if String.eqb (algorithm lb) "roundrobin" then getNextRoundRobinServer rrCounter lb
  else if String.eqb (algorithm lb) "leastconn" then (rrCounter, Returns (getLeastConnServer lb))
  else (rrCounter, getRandomServer fuel rng 0%nat lb).

(** ** Dispatcher *)

(** The connection's [http.ResponseWriter] is an external collaborator: it
    is represented by the calls it has received, oldest first. *)
Inductive RWCall : Type :=
| CallWriteHeader (code : Z)
| CallWrite (data : string).

(** [type loggingResponseWriter struct { http.ResponseWriter; statusCode int }] *)
Record loggingResponseWriter : Type := mkLrw {
  ResponseWriter : list RWCall;
  statusCode : Z
}.

(** [func (lrw *loggingResponseWriter) WriteHeader(code int)] *)
Definition lrw_WriteHeader (code : Z) (lrw : loggingResponseWriter) : loggingResponseWriter :=
  {| ResponseWriter := ResponseWriter lrw ++ [CallWriteHeader code];
     statusCode := code |}.

(** [Write] is promoted from the embedded writer and leaves [statusCode]. *)
Definition lrw_Write (data : string) (lrw : loggingResponseWriter) : loggingResponseWriter :=
  {| ResponseWriter := ResponseWriter lrw ++ [CallWrite data];
     statusCode := statusCode lrw |}.

Definition lrw_call (lrw : loggingResponseWriter) (c : RWCall) : loggingResponseWriter :=
  match c with
  | CallWriteHeader code => lrw_WriteHeader code lrw
  | CallWrite data => lrw_Write data lrw
  end.

(** [http.Error(rw, msg, code)]: status line, then the message. *)
Definition http_Error (rw : list RWCall) (msg : string) (code : Z) : list RWCall :=
  rw ++ [CallWriteHeader code; CallWrite (msg ++ String.String "010"%char "")].

(** How a call of a handler ends. *)
Inductive Termination : Type :=
| Completes
| Aborts (msg : string).

(** One run of [s.proxy.ServeHTTP(rw, req)], the reverse-proxy collaborator:
    the calls it makes on the writer it was given, and how it ends.  A
    forwarding error is a run that writes 502 and completes. *)
Record ProxyRun : Type := mkProxyRun {
  calls : list RWCall;
  ending : Termination
}.

Definition ServeHTTP (run : ProxyRun) (lrw : loggingResponseWriter)
  : loggingResponseWriter * Termination :=
  (fold_left lrw_call (calls run) lrw, ending run).

(** [func (s *simpleServer) Serve]: [increment], the deferred [decrement]
    (which runs whether [ServeHTTP] returns or panics), and the forward. *)
Definition Serve (run : ProxyRun) (s : simpleServer) (lrw : loggingResponseWriter)
  : simpleServer * loggingResponseWriter * Termination :=
  let s1 := increment s in
  let '(lrw', t) := ServeHTTP run lrw in
  let s2 := decrement s1 in
  (s2, lrw', t).

Record Request : Type := mkRequest {
  RemoteAddr : string;
  Path : string
}.

(** A row of [request_logs]. *)
Record RequestEvent : Type := mkRequestEvent {
  client_ip : string;
  path : string;
  backend : string;
  response_time_ms : Z;
  status_code : Z
}.

(** An increment of [lb_requests_total] with its labels; the status label
    is the decimal rendering of [sample_status]. *)
Record Sample : Type := mkSample {
  sample_backend : string;
  sample_algorithm : string;
  sample_status : Z
}.

(** What a request handler can read and change. *)
Record World : Type := mkWorld {
  lb : LoadBalancer;
  rrCounter : Z;
  request_logs : list RequestEvent;
  requestsTotal : list Sample
}.

Definition with_rrCounter (c : Z) (w : World) : World :=
  {| lb := lb w; rrCounter := c;
     request_logs := request_logs w; requestsTotal := requestsTotal w |}.

Definition with_server (i : nat) (s : simpleServer) (w : World) : World :=
  {| lb := {| servers := <[i := s]> (servers (lb w));
              port := port (lb w); algorithm := algorithm (lb w) |};
     rrCounter := rrCounter w;
     request_logs := request_logs w; requestsTotal := requestsTotal w |}.

Definition report (ev : RequestEvent) (sm : Sample) (w : World) : World :=
  {| lb := lb w; rrCounter := rrCounter w;
     request_logs := request_logs w ++ [ev];
     requestsTotal := requestsTotal w ++ [sm] |}.

Definition nil_dereference : string :=
  "invalid memory address or nil pointer dereference".

(** [func (lb *LoadBalancer) serveProxy(rw, req)].  [ms] is the measured
    latency.  The result holds the world, the calls received by [rw] and
    how the handler ended. *)
Definition serveProxy (fuel : nat) (rng : nat -> nat) (run : ProxyRun) (ms : Z)
    (req : Request) (rw : list RWCall) (w : World)
  : World * list RWCall * Outcome unit :=
  let '(c, sel) := getNextAvailableSever fuel rng (rrCounter w) (lb w) in
  let w0 := with_rrCounter c w in
  match sel with
  | Panics m => (w0, rw, Panics m)
  | OutOfFuel => (w0, rw, OutOfFuel)
  | Returns targetServer =>
      if Server_eq_nil targetServer then
        (w0, http_Error rw "Service unavailable" StatusServiceUnavailable, Returns tt)
      else
        match targetServer with
        | Server_simple (Some i) =>
            match servers (lb w0) !! i with
            | None => (w0, rw, Panics nil_dereference)
            | Some s =>
                let lrw := {| ResponseWriter := rw; statusCode := StatusOK |} in
                let targetAddr := Address s in
                let '(s', lrw', t) := Serve run s lrw in
                let w1 := with_server i s' w0 in
                match t with
                | Aborts m => (w1, ResponseWriter lrw', Panics m)
                | Completes =>
                    (report
                       {| client_ip := RemoteAddr req; path := Path req;
                          backend := targetAddr; response_time_ms := ms;
                          status_code := statusCode lrw' |}
                       {| sample_backend := targetAddr;
                          sample_algorithm := algorithm (lb w0);
                          sample_status := statusCode lrw' |}
                       w1,
                     ResponseWriter lrw', Returns tt)
                end
            end
        | _ => (w0, rw, Panics nil_dereference)   (* targetServer.Address() *)
        end
  end.

(** ** Health monitor *)

(** What [client.Get(s.addr + "/health")] yields: an error (refused,
    timed out after two seconds, ...) or a response with its status. *)
Inductive ProbeResult : Type :=
| ProbeError (err : string)
| ProbeResponse (StatusCode : Z).

(** A row of [health_check_logs]. *)
Record HealthEvent : Type := mkHealthEvent {
  hc_backend : string;
  is_alive : bool;
  hc_response_time_ms : Z
}.

Definition setAlive (b : bool) (s : simpleServer) : simpleServer :=
  {| addr := addr s; proxy := proxy s; activeConns := activeConns s;
     alive := b; requests := requests s |}.

(** [func (s *simpleServer) checkHealth()] *)
Definition checkHealth (probe : ProbeResult) (duration : Z) (s : simpleServer)
  : simpleServer * HealthEvent :=
  let failed :=
    match probe with
    | ProbeError _ => true
    | ProbeResponse code => negb (code =? StatusOK)
    end in
  if failed then
    (setAlive false s,
     {| hc_backend := addr s; is_alive := false; hc_response_time_ms := duration |})
  else
    (setAlive true s,
     {| hc_backend := addr s; is_alive := true; hc_response_time_ms := duration |}).

(** The design document's "success status" read as HTTP reads it, a code
    of the 2xx class; the code under [checkHealth] tests for 200 alone. *)
Definition spec_success_status (code : Z) : bool :=
  (200 <=? code) && (code <=? 299).

(** One round of the monitor loop of [main]: every backend is probed once;
    [probe i] and [duration i] are what the probe of backend [i] observes. *)
Definition healthRound (probe : nat -> ProbeResult) (duration : nat -> Z)
    (srvs : list simpleServer) : list simpleServer :=
  imap (fun i s => fst (checkHealth (probe i) (duration i) s)) srvs.

(** ** Start-up *)

(** [handleErr]: prints a non-nil error and returns. *)
Definition handleErr (err : option string) : list string :=
  match err with
  | Some e => [e]
  | None => []
  end.

(** [initialiseServer], over the library function [url.Parse].  The result
    is what was printed and the backend object.  The program needs Go 1.22
    (it ranges over an integer), where [NewSingleHostReverseProxy] only
    stores its target, so a nil target does not panic here. *)
Definition initialiseServer (url_Parse : string -> URL + string) (a : string)
  : list string * simpleServer :=
  let '(serverUrl, err) :=
    match url_Parse a with
    | inl u => (Some u, None)
    | inr e => (None, Some e)
    end in
  (handleErr err,
   {| addr := a; proxy := serverUrl; activeConns := 0; alive := true; requests := 0 |}).

(** The loop of [main] over [cfg.Backends]. *)
Fixpoint initialiseServers (url_Parse : string -> URL + string)
    (backends : list string) (out : list string) (srvs : list simpleServer)
  : list string * list simpleServer :=
  match backends with
  | [] => (out, srvs)
  | a :: rest =>
      let '(o, s) := initialiseServer url_Parse a in
      initialiseServers url_Parse rest (out ++ o) (srvs ++ [s])
  end.

(** A stand-in for [url.Parse] that implements one of its checks only: an
    address that starts with a colon has no scheme. *)
Definition parse_scheme_check (a : string) : URL + string :=
  match a with
  | String.String ":"%char _ => inr "missing protocol scheme"%string
  | _ => inl (mkURL a)
  end.

(** ** The sibling implementation in [internal/proxy] *)

Module proxy.

Definition uint64 (x : Z) : Z := x mod 18446744073709551616.

Record Backend : Type := mkBackend { target : URL }.

Record LoadBalancer : Type := mkLoadBalancer {
  backends : list Backend;
  current : Z    (* uint64 *)
}.

Fixpoint parseBackends (url_Parse : string -> URL + string)
    (cfg : list string) (acc : list Backend) : list Backend + string :=
  match cfg with
  | [] => inl acc
  | u :: rest =>
      match url_Parse u with
      | inr err => inr err
      | inl serverURL => parseBackends url_Parse rest (acc ++ [ {| target := serverURL |} ])
      end
  end.

(** [NewLoadBalancer(cfg)]: the balancer, or the first parse error. *)
Definition NewLoadBalancer (url_Parse : string -> URL + string) (cfg : list string)
  : LoadBalancer + string :=
  match parseBackends url_Parse cfg [] with
  | inr err => inr err
  | inl bs => inl {| backends := bs; current := 0 |}
  end.

(** [nextBackend]: the new counter and the chosen backend, if any. *)
Definition nextBackend (l : LoadBalancer) : LoadBalancer * Outcome (option Backend) :=
  if (length (backends l) =? 0)%nat then (l, Returns None)
  else
    let next := uint64 (current l + 1) in
    let l' := {| backends := backends l; current := next |} in
    match backends l !! Z.to_nat (next mod uint64 (Z.of_nat (length (backends l)))) with
    | Some b => (l', Returns (Some b))
    | None => (l', Panics "index out of range")
    end.

End proxy.

(** ** Concurrent requests on one backend

    Every request dispatched to a backend runs [Serve] in a goroutine of
    its own.  The two updates of the counters are atomic, so an execution
    is an interleaving of the steps below.  A thread is before its
    [increment], or inside [ServeHTTP] with the [decrement] deferred, or
    done, with the way [ServeHTTP] ended. *)

Module Interleaving.

Inductive pc : Type :=
| AtIncrement
| InProxy
| Finished (t : Termination).

Inductive Event : Type :=
| recordStart (tid : nat)
| recordEnd (tid : nat).

Record Sys : Type := mkSys {
  srv : simpleServer;
  threads : list pc;
  history : list Event
}.

(** Thread [tid] takes its next step; [t] is how [ServeHTTP] ends when
    the step is the return from it. *)
Definition thread_step (tid : nat) (t : Termination) (σ : Sys) : option Sys :=
  match threads σ !! tid with
  | Some AtIncrement =>
      Some {| srv := increment (srv σ);
              threads := <[tid := InProxy]> (threads σ);
              history := history σ ++ [recordStart tid] |}
  | Some InProxy =>
      Some {| srv := decrement (srv σ);
              threads := <[tid := Finished t]> (threads σ);
              history := history σ ++ [recordEnd tid] |}
  | _ => None
  end.

Fixpoint run (sched : list (nat * Termination)) (σ : Sys) : option Sys :=
  match sched with
  | [] => Some σ
  | (tid, t) :: rest =>
      match thread_step tid t σ with
      | Some σ' => run rest σ'
      | None => None
      end
  end.

Definition init (n : nat) (s : simpleServer) : Sys :=
  {| srv := s; threads := replicate n AtIncrement; history := [] |}.

Definition is_start (tid : option nat) (e : Event) : bool :=
  match e, tid with
  | recordStart _, None => true
  | recordStart j, Some i => Nat.eqb i j
  | recordEnd _, _ => false
  end.

Definition is_end (tid : option nat) (e : Event) : bool :=
  match e, tid with
  | recordEnd _, None => true
  | recordEnd j, Some i => Nat.eqb i j
  | recordStart _, _ => false
  end.

Definition tally (p : Event -> bool) (h : list Event) : Z :=
  Z.of_nat (length (filter (fun e => Is_true (p e)) h)).

(** Calls of [recordStart]/[recordEnd] so far on the backend ... *)
Definition starts (h : list Event) : Z := tally (is_start None) h.
Definition ends (h : list Event) : Z := tally (is_end None) h.
(** ... and by one request. *)
Definition starts_of (tid : nat) (h : list Event) : Z := tally (is_start (Some tid)) h.
Definition ends_of (tid : nat) (h : list Event) : Z := tally (is_end (Some tid)) h.

Definition in_flight (p : pc) : bool :=
  match p with InProxy => true | _ => false end.

(** Requests that are inside [ServeHTTP]. *)
Definition count_in_flight (ths : list pc) : Z :=
  Z.of_nat (length (filter (fun p => Is_true (in_flight p)) ths)).

(** What a thread has recorded, by its position in [Serve]. *)
Definition recorded (p : option pc) : Z * Z :=
  match p with
  | None | Some AtIncrement => (0, 0)
  | Some InProxy => (1, 0)
  | Some (Finished _) => (1, 1)
  end.

(** The invariant of the interleavings, for a backend whose counter was
    [a0] before any of the threads ran. *)
Definition Inv (a0 : Z) (σ : Sys) : Prop :=
  activeConns (srv σ) = int32 (a0 + (starts (history σ) - ends (history σ))) /\
  starts (history σ) - ends (history σ) = count_in_flight (threads σ) /\
  forall tid,
    (starts_of tid (history σ), ends_of tid (history σ)) = recorded (threads σ !! tid).

End Interleaving.

(** ** Pools of the scenarios *)

Definition backend_at (a : string) (conns : Z) (up : bool) : simpleServer :=
  {| addr := a; proxy := Some (mkURL a); activeConns := conns; alive := up; requests := 0 |}.

Definition pool_ABC (algo : string) : LoadBalancer :=
  newLoadBalancer [backend_at "A" 0 true; backend_at "B" 0 true; backend_at "C" 0 true]
                  "8000" algo.

Definition pool_A2_B0_C1 : LoadBalancer :=
  newLoadBalancer [backend_at "A" 2 true; backend_at "B" 0 true; backend_at "C" 1 true]
                  "8000" "leastconn".

Definition pool_dead (algo : string) : LoadBalancer :=
  newLoadBalancer [backend_at "A" 0 false] "8000" algo.

Definition pool_empty (algo : string) : LoadBalancer :=
  newLoadBalancer [] "8000" algo.

(** The backend an outcome of the selector designates, by address. *)
Definition chosen (lb : LoadBalancer) (o : Outcome Server) : option string :=
  match o with
  | Returns (Server_simple (Some i)) => Address <$> servers lb !! i
  | _ => None
  end.

(** [n] selections one after the other, [rrCounter] carried along. *)
Fixpoint rrSelections (n : nat) (rrCounter : Z) (lb : LoadBalancer)
  : list (option string) :=
  match n with
  | O => []
  | S n' =>
      let '(c, o) := getNextRoundRobinServer rrCounter lb in
      chosen lb o :: rrSelections n' c lb
  end.

(** [rrCounter] after [n] round-robin selections. *)
Fixpoint rrCounterAfter (n : nat) (rrCounter : Z) (lb : LoadBalancer) : Z :=
  match n with
  | O => rrCounter
  | S n' => rrCounterAfter n' (fst (getNextRoundRobinServer rrCounter lb)) lb
  end.

(** ** Further selections and rounds *)

(** [n] round-robin selections one after the other, as interface values. *)
Fixpoint rrTargets (n : nat) (rrCounter : Z) (lb : LoadBalancer)
  : list (Outcome Server) :=
  match n with
  | O => []
  | S n' =>
      let '(c, o) := getNextRoundRobinServer rrCounter lb in
      o :: rrTargets n' c lb
  end.

(** The position that the [j]-th draw of the generator samples. *)
Definition sampled (rng : nat -> nat) (lb : LoadBalancer) (j : nat) : nat :=
  (rng j mod length (servers lb))%nat.

(** The monitor loop of [main] run for several rounds; round [r] observes
    [probes r] and [durations r]. *)
Fixpoint healthRounds (probes : list (nat -> ProbeResult)) (duration : nat -> Z)
    (srvs : list simpleServer) : list simpleServer :=
  match probes with
  | [] => srvs
  | probe :: rest => healthRounds rest duration (healthRound probe duration srvs)
  end.

(** The rows that one round writes to [health_check_logs] (their order
    among the goroutines apart). *)
Definition healthRoundEvents (probe : nat -> ProbeResult) (duration : nat -> Z)
    (srvs : list simpleServer) : list HealthEvent :=
  imap (fun i s => snd (checkHealth (probe i) (duration i) s)) srvs.

(** The last status handed to [WriteHeader] among [cs], if any. *)
Fixpoint lastWriteHeader (cs : list RWCall) (seen : option Z) : option Z :=
  match cs with
  | [] => seen
  | CallWriteHeader code :: rest => lastWriteHeader rest (Some code)
  | CallWrite _ :: rest => lastWriteHeader rest seen
  end.

(** ** The handler of [internal/proxy] *)

Module proxy_handler.

(** [func (lb *LoadBalancer) ServeHTTP(w, r)]: the balancer afterwards, the
    calls received by [w], and how the handler ended. *)
Definition ServeHTTP (run : ProxyRun) (w : list RWCall) (l : proxy.LoadBalancer)
  : proxy.LoadBalancer * list RWCall * Outcome unit :=
  match proxy.nextBackend l with
  | (l', Panics m) => (l', w, Panics m)
  | (l', OutOfFuel) => (l', w, OutOfFuel)
  | (l', Returns None) =>
      (l', http_Error w "No backends available" StatusServiceUnavailable, Returns tt)
  | (l', Returns (Some backend)) =>
      match ending run with
      | Completes => (l', w ++ calls run, Returns tt)
      | Aborts m => (l', w ++ calls run, Panics m)
      end
  end.

(** [n] calls of [nextBackend] one after the other. *)
Fixpoint nextBackends (n : nat) (l : proxy.LoadBalancer)
  : list (Outcome (option proxy.Backend)) :=
  match n with
  | O => []
  | S n' => snd (proxy.nextBackend l) :: nextBackends n' (fst (proxy.nextBackend l))
  end.

End proxy_handler.

(** ** The first version of the balancer (the second [main.go])

    Backends have no liveness flag: [isAlive] is constantly true, the only
    selection is the random loop, and [serveProxy] forwards without a nil
    test and without counters. *)

Module v0.

Record simpleServer : Type := mkSimpleServer {
  addr : string;
  proxy : option URL
}.

Record LoadBalancer : Type := mkLoadBalancer {
  servers : list simpleServer;
  port : string;
  algorithm : string
}.

Definition isAlive (s : simpleServer) : bool := true.
Definition Address (s : simpleServer) : string := addr s.

Definition initialiseServer (url_Parse : string -> URL + string) (a : string)
  : list string * simpleServer :=
  let '(serverUrl, err) :=
    match url_Parse a with
    | inl u => (Some u, None)
    | inr e => (None, Some e)
    end in
  (handleErr err, {| addr := a; proxy := serverUrl |}).

Fixpoint getNextAvailableSever (fuel : nat) (rng : nat -> nat) (k : nat)
    (lb : LoadBalancer) : Outcome nat :=
  match fuel with
  | O => OutOfFuel
  | S fuel' =>
      match Intn (rng k) (Z.of_nat (length (servers lb))) with
      | Returns j =>
          match servers lb !! Z.to_nat j with
          | None => Panics "index out of range"
          | Some server =>
              if isAlive server then Returns (Z.to_nat j)
              else getNextAvailableSever fuel' rng (S k) lb
          end
      | Panics m => Panics m
      | OutOfFuel => OutOfFuel
      end
  end.

(** [serveProxy]: the calls received by [rw] and how the handler ended. *)
Definition serveProxy (fuel : nat) (rng : nat -> nat) (run : ProxyRun)
    (rw : list RWCall) (lb : LoadBalancer) : list RWCall * Outcome unit :=
  match getNextAvailableSever fuel rng 0 lb with
  | Panics m => (rw, Panics m)
  | OutOfFuel => (rw, OutOfFuel)
  | Returns i =>
      match ending run with
      | Completes => (rw ++ calls run, Returns tt)
      | Aborts m => (rw ++ calls run, Panics m)
      end
  end.

End v0.

(** ** The test backends of [create_servers.go]

    Go strings are byte strings, as [string] is here; [int] has 64 bits. *)

Module create_servers.

(** [strings.LastIndex(s, sep)] for a separator of one byte; [i] is the
    position of the head of [s], [last] the last match so far. *)
Fixpoint lastIndexFrom (s : string) (sep : ascii) (i last : Z) : Z :=
  match s with
  | EmptyString => last
  | String c rest => lastIndexFrom rest sep (i + 1) (if Ascii.eqb c sep then i else last)
  end.

Definition LastIndex (s : string) (sep : ascii) : Z := lastIndexFrom s sep 0 (-1).

(** [s[n:]] *)
Fixpoint sliceFrom (n : nat) (s : string) : string :=
  match n, s with
  | O, _ => s
  | S n', String _ rest => sliceFrom n' rest
  | S _, EmptyString => EmptyString
  end.

Inductive NumError : Type := ErrSyntax | ErrRange.

Definition digit_of (c : ascii) : option Z :=
  let n := Z.of_nat (nat_of_ascii c) in
  if (48 <=? n) && (n <=? 57) then Some (n - 48) else None.

Definition maxUint64 : Z := 18446744073709551615.

(** The loop of [strconv.ParseUint(s, 10, 0)]. *)
Fixpoint ParseUint_digits (s : string) (n : Z) : Z * option NumError :=
  match s with
  | EmptyString => (n, None)
  | String c rest =>
      match digit_of c with
      | None => (0, Some ErrSyntax)
      | Some d =>
          if 1844674407370955162 <=? n then (maxUint64, Some ErrRange)
          else
            let n1 := n * 10 + d in
            if maxUint64 <? n1 then (maxUint64, Some ErrRange)
            else ParseUint_digits rest n1
      end
  end.

Definition ParseUint (s : string) : Z * option NumError :=
  match s with
  | EmptyString => (0, Some ErrSyntax)
  | _ => ParseUint_digits s 0
  end.

(** [strconv.Atoi]: its [ParseInt(s, 10, 0)] path, with which the fast
    path for short inputs agrees. *)
Definition Atoi (s : string) : Z * option NumError :=
  match s with
  | EmptyString => (0, Some ErrSyntax)
  | String c rest =>
      let neg := Ascii.eqb c "-" in
      let body := if Ascii.eqb c "+" || neg then rest else s in
      match ParseUint body with
      | (_, Some ErrSyntax) => (0, Some ErrSyntax)
      | (un, _) =>
          if negb neg && (9223372036854775808 <=? un)
          then (9223372036854775807, Some ErrRange)
          else if neg && (9223372036854775808 <? un)
          then (-9223372036854775808, Some ErrRange)
          else (if neg then - un else un, None)
      end
  end.

(** The digits that [%d] writes for [n >= 0], from the last one backwards;
    [fuel] bounds the number of digits. *)
Fixpoint fmtDigits (fuel : nat) (n : Z) (acc : string) : string :=
  match fuel with
  | O => acc
  | S fuel' =>
      let acc' := String (ascii_of_nat (Z.to_nat (48 + n mod 10))) acc in
      if n <? 10 then acc' else fmtDigits fuel' (n / 10) acc'
  end.

(** [fmt.Sprintf("%d", p)] *)
Definition FormatInt (p : Z) : string :=
  let digits := fmtDigits (S (Z.to_nat (Z.log2 (Z.abs p)))) (Z.abs p) EmptyString in
  if p <? 0 then String "-" digits else digits.

Inductive PortError : Type :=
| InvalidURLFormat (url : string)
| NotANumber (e : NumError).

(** [func extractPort(url string) (int, error)] *)
Definition extractPort (url : string) : Z * option PortError :=
  let colonIndex := LastIndex url ":" in
  if (colonIndex =? -1) || (Z.of_nat (String.length url) <=? colonIndex + 1)
  then (0, Some (InvalidURLFormat url))
  else
    let portStr := sliceFrom (Z.to_nat (colonIndex + 1)) url in
    match Atoi portStr with
    | (n, None) => (n, None)
    | (n, Some e) => (n, Some (NotANumber e))
    end.

(** The first loop of [create_servers]: [None] when an address has no
    port ("something went wrong", and the function returns). *)
Fixpoint parsePorts (ports : list string) (strports : list Z) : option (list Z) :=
  match ports with
  | [] => Some strports
  | port :: rest =>
      match extractPort port with
      | (strport, None) => parsePorts rest (strports ++ [strport])
      | (_, Some _) => None
      end
  end.

(** [create_servers]: the addresses handed to [http.ListenAndServe], one
    goroutine each. *)
Definition create_servers (backends : list string) : list string :=
  match parsePorts backends [] with
  | None => []
  | Some strports => map (fun p => String.append "localhost:" (FormatInt p)) strports
  end.

(** Whether the byte [c] occurs in [s]. *)
Fixpoint hasByte (c : ascii) (s : string) : bool :=
  match s with
  | EmptyString => false
  | String a rest => Ascii.eqb a c || hasByte c rest
  end.

(** Whether every byte of [s] is a decimal digit. *)
Fixpoint allDigits (s : string) : bool :=
  match s with
  | EmptyString => true
  | String a rest =>
      match digit_of a with
      | Some _ => allDigits rest
      | None => false
      end
  end.

(** Whether [s] is what [strconv.Atoi] takes for a number: decimal
    digits, at least one, with at most one sign in front. *)
Definition wellFormedPort (s : string) : bool :=
  match s with
  | EmptyString => false
  | String c tail =>
      allDigits tail &&
      (match digit_of c with Some _ => true | None => false end
       || ((Ascii.eqb c "+" || Ascii.eqb c "-")
           && match tail with EmptyString => false | _ => true end))
  end.

(** The address of the [i]-th configured backend when the test backends
    listen on [ports]: some prefix without meaning for [extractPort], a
    colon and the port. *)
Definition configured (prefix : string) (p : Z) : string :=
  String.append prefix (String ":" (FormatInt p)).

End create_servers.

(** Position visited by the [k]-th step of a circular scan from [start]. *)
Definition rrIndex (total start k : Z) : nat := Z.to_nat ((start + k) mod total).

(** No alive backend at position [j]. *)
Definition dead_at (srvs : list simpleServer) (j : nat) : Prop :=
  forall s, srvs !! j = Some s -> isAlive s = false.

(** * Properties *)

(** ** Machine integers *)

Lemma int32_range x : -2147483648 <= int32 x <= 2147483647.
Proof. unfold int32. pose proof (Z.mod_pos_bound (x + 2147483648) 4294967296). lia. Qed.

Lemma int32_id x : -2147483648 <= x <= 2147483647 -> int32 x = x.
Proof. intros H. unfold int32. rewrite Z.mod_small; lia. Qed.

Lemma int32_add_l x y : int32 (int32 x + y) = int32 (x + y).
Proof.
  unfold int32.
  replace ((x + 2147483648) mod 4294967296 - 2147483648 + y + 2147483648)
    with ((x + 2147483648) mod 4294967296 + y) by lia.
  replace (x + y + 2147483648) with ((x + 2147483648) + y) by lia.
  f_equal. rewrite Zplus_mod_idemp_l. reflexivity.
Qed.

(** ** RANDOM *)

Lemma Intn_in_range raw n : 0 < n -> exists j, Intn raw n = Returns j /\ 0 <= j < n.
Proof.
  intros Hn. unfold Intn. destruct (Z.leb_spec n 0); [lia|].
  eexists; split; [reflexivity|]. apply Z.mod_pos_bound; lia.
Qed.

Lemma getRandomServer_dead_loop lb fuel rng k :
  servers lb <> [] ->
  Forall (fun s => isAlive s = false) (servers lb) ->
  getRandomServer fuel rng k lb = OutOfFuel.
Proof.
  intros Hne Hdead. revert k.
  induction fuel as [|fuel IH]; intros k; [reflexivity|].
  cbn [getRandomServer].
  destruct (Intn_in_range (rng k) (Z.of_nat (length (servers lb)))) as (j & -> & Hj).
  { destruct (servers lb); [congruence | cbn; lia]. }
  destruct (lookup_lt_is_Some_2 (servers lb) (Z.to_nat j)) as [s Hs]; [lia|].
  rewrite Hs.
  rewrite (proj1 (Forall_lookup _ _) Hdead _ _ Hs).
  apply IH.
Qed.

(** The simulation is adequate: an alive sample ends the loop at once, and
    a call that has returned or panicked does the same with more fuel. *)
Lemma getRandomServer_alive_sample lb fuel rng k s :
  servers lb !! (rng k mod length (servers lb))%nat = Some s ->
  isAlive s = true ->
  getRandomServer (S fuel) rng k lb
  = Returns (Server_simple (Some (rng k mod length (servers lb))%nat)).
Proof.
  intros Hs Hal. cbn [getRandomServer]. unfold Intn.
  assert (Hlen : (0 < length (servers lb))%nat).
  { apply lookup_lt_Some in Hs. lia. }
  destruct (Z.leb_spec (Z.of_nat (length (servers lb))) 0); [lia|].
  assert (Hj : Z.to_nat (Z.of_nat (rng k) mod Z.of_nat (length (servers lb)))
               = (rng k mod length (servers lb))%nat).
  { rewrite <- Nat2Z.inj_mod. apply Nat2Z.id. }
  rewrite Hj, Hs, Hal. reflexivity.
Qed.

Lemma getRandomServer_fuel_mono lb rng fuel : forall k,
  getRandomServer fuel rng k lb <> OutOfFuel ->
  getRandomServer (S fuel) rng k lb = getRandomServer fuel rng k lb.
Proof.
  induction fuel as [|fuel IH]; intros k Hne; [done|].
  cbn [getRandomServer] in Hne |- *.
  destruct (Intn (rng k) (Z.of_nat (length (servers lb)))) as [j|m|]; try done.
  destruct (servers lb !! Z.to_nat j) as [server|]; [|done].
  destruct (isAlive server); [done|].
  apply IH in Hne. exact Hne.
Qed.

(** C1 (the code departs from the claim): on a non-empty pool without an
    alive backend the loop of [getRandomServer] has no exit.  However many
    iterations are granted and whatever the generator draws, the call has
    not returned, neither NONE nor anything else, and the dispatcher
    has written no response. *)
Theorem getRandomServer_all_dead_never_returns
    (w : World) (fuel : nat) (rng : nat -> nat)
    (run : ProxyRun) (ms : Z) (req : Request) (rw : list RWCall) :
  servers (lb w) <> [] ->
  Forall (fun s => isAlive s = false) (servers (lb w)) ->
  (forall k, getRandomServer fuel rng k (lb w) = OutOfFuel) /\
  (algorithm (lb w) = "random"%string ->
   serveProxy fuel rng run ms req rw w = (with_rrCounter (rrCounter w) w, rw, OutOfFuel)).
Proof.
  intros Hne Hdead. split.
  - intros k. by apply getRandomServer_dead_loop.
  - intros Ha. unfold serveProxy, getNextAvailableSever. rewrite Ha. cbn.
    by rewrite getRandomServer_dead_loop.
Qed.

Lemma getRandomServer_all_dead_witness :
  getRandomServer 1000 (fun k => k) 7 (pool_dead "random") = OutOfFuel.
Proof.
  refine (proj1 (getRandomServer_all_dead_never_returns
                   {| lb := pool_dead "random"; rrCounter := 0;
                      request_logs := []; requestsTotal := [] |}
                   1000 (fun k => k) {| calls := []; ending := Completes |} 0
                   {| RemoteAddr := "client"; Path := "/" |} [] _ _) 7%nat).
  - discriminate.
  - repeat constructor.
Defined.

(** C2 (the code departs from the claim): on the empty pool round-robin
    returns the nil interface and least-connections the nil pointer, but
    the random algorithm, also reached as the default of the switch, calls
    [rand.Intn(0)], which panics. *)
Theorem getNextAvailableSever_empty_pool (fuel : nat) (rng : nat -> nat) (c : Z) :
  getNextAvailableSever fuel rng c (pool_empty "roundrobin") = (c, Returns Server_nil) /\
  getNextAvailableSever fuel rng c (pool_empty "leastconn") = (c, Returns (Server_simple None)) /\
  getNextAvailableSever (S fuel) rng c (pool_empty "random")
    = (c, Panics "invalid argument to Intn") /\
  getNextAvailableSever (S fuel) rng c (pool_empty "weighted")
    = (c, Panics "invalid argument to Intn").
Proof. repeat split. Qed.

(** ** ROUND_ROBIN *)

(** C3 as stated fails: the first backend returned is B, and the six
    selections are not A, B, C, A, B, C. *)
Lemma rrSelections_ABC_not_A_first :
  hd_error (rrSelections 6 0 (pool_ABC "roundrobin")) = Some (Some "B"%string) /\
  rrSelections 6 0 (pool_ABC "roundrobin")
  <> [Some "A"; Some "B"; Some "C"; Some "A"; Some "B"; Some "C"]%string.
Proof. split; [reflexivity | vm_compute; discriminate]. Qed.

(** C3 (amended): with the cursor at 0 the first call advances it to 1
    before it is used, and six sequential selections on [A, B, C], all
    alive, return B, C, A, B, C, A. *)
Theorem rrSelections_ABC :
  rrSelections 6 0 (pool_ABC "roundrobin")
  = [Some "B"; Some "C"; Some "A"; Some "B"; Some "C"; Some "A"]%string.
Proof. vm_compute. reflexivity. Qed.

Lemma rrScan_spec srvs start n i :
  0 <= start -> 0 <= i -> i + Z.of_nat n = Z.of_nat (length srvs) ->
  (exists k, i <= k < Z.of_nat (length srvs) /\
     rrScan srvs (Z.of_nat (length srvs)) start i n
       = Returns (Server_simple (Some (rrIndex (Z.of_nat (length srvs)) start k))) /\
     (exists s, srvs !! rrIndex (Z.of_nat (length srvs)) start k = Some s /\ isAlive s = true) /\
     (forall k', i <= k' < k -> dead_at srvs (rrIndex (Z.of_nat (length srvs)) start k')))
  \/
  (rrScan srvs (Z.of_nat (length srvs)) start i n = Returns Server_nil /\
   (forall k', i <= k' < Z.of_nat (length srvs) ->
      dead_at srvs (rrIndex (Z.of_nat (length srvs)) start k'))).
Proof.
  set (total := Z.of_nat (length srvs)).
  intros Hs. revert i. induction n as [|n IH]; intros i Hi Hn.
  - right. split; [reflexivity|]. intros k' Hk'. lia.
  - cbn [rrScan].
    assert (Ht : 0 < total) by lia.
    rewrite Z.rem_mod_nonneg by lia.
    pose proof (Z.mod_pos_bound (start + i) total Ht) as Hb.
    destruct (Z.ltb_spec ((start + i) mod total) 0); [lia|].
    destruct (Z.leb_spec total ((start + i) mod total)); [lia|].
    cbn [orb].
    destruct (lookup_lt_is_Some_2 srvs (Z.to_nat ((start + i) mod total))) as [s Hlk].
    { subst total. lia. }
    rewrite Hlk. destruct (isAlive s) eqn:Hal.
    + left. exists i. split; [lia|]. split; [reflexivity|]. split.
      * exists s. split; assumption.
      * intros k' Hk'. lia.
    + destruct (IH (i + 1)) as [(k & Hk & Hr & Hal' & Hd) | (Hr & Hd)]; [lia | lia | |].
      * left. exists k. split; [lia|]. split; [exact Hr|]. split; [exact Hal'|].
        intros k' Hk'. destruct (Z.eq_dec k' i) as [->|Hne].
        -- intros s' Hs'. unfold rrIndex in Hs'. fold total in Hs'. congruence.
        -- apply Hd. lia.
      * right. split; [exact Hr|].
        intros k' Hk'. destruct (Z.eq_dec k' i) as [->|Hne].
        -- intros s' Hs'. unfold rrIndex in Hs'. fold total in Hs'. congruence.
        -- apply Hd. lia.
Qed.

(** Every position is visited by a full circular scan. *)
Lemma rrIndex_onto total start (j : nat) :
  0 <= start -> (Z.of_nat j < total) ->
  exists k, 0 <= k < total /\ rrIndex total start k = j.
Proof.
  intros Hs Hj. exists ((Z.of_nat j - start) mod total).
  split; [apply Z.mod_pos_bound; lia|].
  unfold rrIndex. rewrite Zplus_mod_idemp_r.
  replace (start + (Z.of_nat j - start)) with (Z.of_nat j) by lia.
  rewrite Z.mod_small by lia. lia.
Qed.

(** Within the range of [int32] the selection is the one of the design:
    the cursor advances by one, the scan starts at [cursor mod poolSize],
    visits at most [poolSize] positions in circular order and returns the
    first alive backend, or the nil interface when none is alive. *)
Lemma getNextRoundRobinServer_in_range (c : Z) (lb : LoadBalancer) :
  let total := Z.of_nat (length (servers lb)) in
  0 < total < 2147483648 ->
  -1 <= c < 2147483647 ->
  let start := (c + 1) mod total in
  fst (getNextRoundRobinServer c lb) = c + 1 /\
  ((exists k, 0 <= k < total /\
      snd (getNextRoundRobinServer c lb)
        = Returns (Server_simple (Some (rrIndex total start k))) /\
      (exists s, servers lb !! rrIndex total start k = Some s /\ isAlive s = true) /\
      (forall k', 0 <= k' < k -> dead_at (servers lb) (rrIndex total start k')))
   \/
   (snd (getNextRoundRobinServer c lb) = Returns Server_nil /\
    Forall (fun s => isAlive s = false) (servers lb))).
Proof.
  intros total Ht Hc start. unfold getNextRoundRobinServer. fold total.
  destruct (Z.eqb_spec total 0); [lia|].
  rewrite (int32_id total) by lia.
  rewrite (int32_id (c + 1)) by lia.
  destruct (Z.eqb_spec total 0); [lia|]. cbn [fst snd].
  split; [reflexivity|].
  rewrite Z.rem_mod_nonneg by lia. fold start.
  assert (Hst : 0 <= start) by (apply Z.mod_pos_bound; lia).
  destruct (rrScan_spec (servers lb) start (length (servers lb)) 0)
    as [(k & Hk & Hr & Hal & Hd) | (Hr & Hd)]; [lia | lia | fold total; lia | |].
  - left. exists k. fold total in Hk, Hr, Hal, Hd. auto.
  - right. fold total in Hr, Hd. split; [exact Hr|].
    apply Forall_lookup. intros j s Hj.
    destruct (rrIndex_onto total start j) as (k & Hk & Hkj); [lia | |].
    { apply lookup_lt_Some in Hj. subst total. lia. }
    apply (Hd k Hk). rewrite Hkj. exact Hj.
Qed.

Lemma rrCounterAfter_nonempty n c lb :
  servers lb <> [] ->
  rrCounterAfter n (int32 c) lb = int32 (c + Z.of_nat n).
Proof.
  intros Hne. revert c. induction n as [|n IH]; intros c.
  - cbn. f_equal. lia.
  - cbn [rrCounterAfter].
    assert (fst (getNextRoundRobinServer (int32 c) lb) = int32 (c + 1)) as ->.
    { unfold getNextRoundRobinServer.
      destruct (Z.eqb_spec (Z.of_nat (length (servers lb))) 0) as [H0|_].
      - destruct (servers lb); [congruence | cbn in H0; lia].
      - rewrite int32_add_l. by destruct (_ =? 0). }
    rewrite IH. f_equal. lia.
Qed.

(** C4 (the code departs from the claim): the cursor is an [int32].  After
    2147483647 selections it holds [MaxInt32]; the next selection wraps it
    to -2147483648, for which Go's [%] gives the start -2, and the first
    slice access panics instead of returning an alive backend. *)
Theorem getNextRoundRobinServer_cursor_overflow :
  rrCounterAfter (Z.to_nat 2147483647) 0 (pool_ABC "roundrobin") = MaxInt32 /\
  getNextRoundRobinServer MaxInt32 (pool_ABC "roundrobin")
    = (-2147483648, Panics "index out of range").
Proof.
  split.
  - change 0 with (int32 0) at 1.
    rewrite rrCounterAfter_nonempty by discriminate.
    rewrite Z2Nat.id by lia. reflexivity.
  - vm_compute. reflexivity.
Qed.

(** The sibling selector of [internal/proxy] keeps an unsigned cursor and
    always indexes inside the slice. *)
Lemma nextBackend_in_range (l : proxy.LoadBalancer) :
  (0 < length (proxy.backends l))%nat ->
  Z.of_nat (length (proxy.backends l)) < 18446744073709551616 ->
  exists b, snd (proxy.nextBackend l) = Returns (Some b).
Proof.
  intros Hlen Hbound. unfold proxy.nextBackend.
  destruct (Nat.eqb_spec (length (proxy.backends l)) 0); [lia|].
  assert (proxy.uint64 (Z.of_nat (length (proxy.backends l)))
          = Z.of_nat (length (proxy.backends l))) as ->.
  { unfold proxy.uint64. rewrite Z.mod_small; lia. }
  destruct (lookup_lt_is_Some_2 (proxy.backends l)
    (Z.to_nat (proxy.uint64 (proxy.current l + 1) mod Z.of_nat (length (proxy.backends l)))))
    as [b Hb].
  { pose proof (Z.mod_pos_bound (proxy.uint64 (proxy.current l + 1))
                  (Z.of_nat (length (proxy.backends l)))). lia. }
  rewrite Hb. eauto.
Qed.

(** ** LEAST_CONN *)

(** The invariant of the scan: either no alive backend lies below [min]
    and [selected] is kept, or the result is the first alive backend of
    least count, [k] positions after the head. *)
Lemma leastConnScan_spec srvs : forall i selected min,
  (leastConnScan srvs i selected min = selected /\
   forall s, s ∈ srvs -> isAlive s = true -> min <= activeConns s)
  \/
  (exists k s,
     leastConnScan srvs i selected min = Some (i + k)%nat /\
     srvs !! k = Some s /\ isAlive s = true /\ activeConns s < min /\
     (forall k' s', srvs !! k' = Some s' -> isAlive s' = true ->
        activeConns s <= activeConns s') /\
     (forall k' s', (k' < k)%nat -> srvs !! k' = Some s' -> isAlive s' = true ->
        activeConns s < activeConns s')).
Proof.
  induction srvs as [|srv rest IH]; intros i selected min.
  - left. split; [reflexivity|]. intros s Hs. by apply elem_of_nil in Hs.
  - cbn [leastConnScan]. unfold getActiveConns.
    destruct (isAlive srv) eqn:Hal; [destruct (Z.ltb_spec (activeConns srv) min) as [Hlt|Hge]|].
    + (* the head becomes the candidate *)
      right.
      destruct (IH (S i) (Some i) (activeConns srv))
        as [(Hr & Hall) | (k & s & Hr & Hk & Hs & Hlt' & Hmin & Hfirst)].
      * exists 0%nat, srv. rewrite Hr, Nat.add_0_r.
        repeat split; try done.
        -- intros [|k'] s' Hk' Hs'; cbn in Hk'.
           ++ injection Hk' as <-. lia.
           ++ apply Hall; [|done]. by eapply list_elem_of_lookup_2.
        -- intros k' s' Hk'. lia.
      * exists (S k), s. rewrite Hr.
        repeat split; try done; try lia.
        -- f_equal. lia.
        -- intros [|k'] s' Hk' Hs'; cbn in Hk'.
           ++ injection Hk' as <-. lia.
           ++ by eapply Hmin.
        -- intros [|k'] s' Hlt'' Hk' Hs'; cbn in Hk'.
           ++ injection Hk' as <-. lia.
           ++ eapply Hfirst; [|done..]. lia.
    + (* the head is alive but not below [min] *)
      destruct (IH (S i) selected min)
        as [(Hr & Hall) | (k & s & Hr & Hk & Hs & Hlt' & Hmin & Hfirst)].
      * left. split; [done|].
        intros s Hin Hs. apply elem_of_cons in Hin as [->|Hin]; [lia | by apply Hall].
      * right. exists (S k), s. rewrite Hr.
        repeat split; try done; try lia.
        -- f_equal. lia.
        -- intros [|k'] s' Hk' Hs'; cbn in Hk'.
           ++ injection Hk' as <-. lia.
           ++ by eapply Hmin.
        -- intros [|k'] s' Hlt'' Hk' Hs'; cbn in Hk'.
           ++ injection Hk' as <-. lia.
           ++ eapply Hfirst; [|done..]. lia.
    + (* the head is not alive *)
      destruct (IH (S i) selected min)
        as [(Hr & Hall) | (k & s & Hr & Hk & Hs & Hlt' & Hmin & Hfirst)].
      * left. split; [done|].
        intros s Hin Hs. apply elem_of_cons in Hin as [->|Hin]; [congruence | by apply Hall].
      * right. exists (S k), s. rewrite Hr.
        repeat split; try done; try lia.
        -- f_equal. lia.
        -- intros [|k'] s' Hk' Hs'; cbn in Hk'.
           ++ injection Hk' as <-. congruence.
           ++ by eapply Hmin.
        -- intros [|k'] s' Hlt'' Hk' Hs'; cbn in Hk'.
           ++ injection Hk' as <-. congruence.
           ++ eapply Hfirst; [|done..]. lia.
Qed.

Lemma leastConnScan_all_dead srvs :
  Forall (fun s => isAlive s = false) srvs ->
  leastConnScan srvs 0 None MaxInt32 = None.
Proof.
  intros Hd.
  destruct (leastConnScan_spec srvs 0%nat None MaxInt32)
    as [(Hr & _) | (k & s & _ & Hk & Hs & _)]; [done|].
  rewrite (proj1 (Forall_lookup _ _) Hd _ _ Hk) in Hs. discriminate.
Qed.



(** ** Connection counters *)

Section Interleavings.
Import Interleaving.

Lemma tally_nil p : tally p [] = 0.
Proof. reflexivity. Qed.

Lemma tally_snoc p h e : tally p (h ++ [e]) = tally p h + (if p e then 1 else 0).
Proof.
  unfold tally. rewrite list.filter_app, length_app, (list.filter_singleton _ e []).
  destruct (p e); cbn; [rewrite decide_True by done | rewrite decide_False by auto];
    cbn; lia.
Qed.

Lemma count_in_flight_nonneg ths : 0 <= count_in_flight ths.
Proof. unfold count_in_flight. lia. Qed.

Lemma count_in_flight_insert ths : forall tid p q,
  ths !! tid = Some p ->
  count_in_flight (<[tid := q]> ths)
  = count_in_flight ths - (if in_flight p then 1 else 0) + (if in_flight q then 1 else 0).
Proof.
  unfold count_in_flight.
  induction ths as [|a ths IH]; intros [|tid] p q Hlk; try discriminate.
  - injection Hlk as ->. cbn [insert list_insert]. rewrite !list.filter_cons.
    destruct (in_flight p), (in_flight q); cbn;
      repeat case_decide; try tauto; cbn [length]; lia.
  - cbn in Hlk. specialize (IH tid p q Hlk).
    change (<[S tid:=q]> (a :: ths)) with (a :: <[tid:=q]> ths).
    rewrite !list.filter_cons.
    destruct (decide _); cbn [length]; rewrite ?Nat2Z.inj_succ, IH; lia.
Qed.

Lemma Inv_init a0 n s : activeConns s = int32 a0 -> Inv a0 (init n s).
Proof.
  intros Ha. unfold Inv, init, starts, ends, starts_of, ends_of. cbn.
  rewrite !tally_nil. split; [rewrite Ha; f_equal; lia|]. split.
  - unfold count_in_flight.
    induction n as [|n IHn]; [reflexivity|]. cbn [replicate]. by rewrite list.filter_cons.
  - intros tid. destruct (replicate n AtIncrement !! tid) as [p|] eqn:Hp; [|done].
    apply lookup_replicate in Hp as [-> _]. done.
Qed.

Lemma Inv_step a0 tid t σ σ' :
  Inv a0 σ -> thread_step tid t σ = Some σ' -> Inv a0 σ'.
Proof.
  intros (Hc & Hf & Hth) Hstep. unfold thread_step in Hstep.
  destruct (threads σ !! tid) as [[| |t0]|] eqn:Hlk; try discriminate;
    injection Hstep as <-; unfold Inv, starts, ends, starts_of, ends_of in *; cbn;
    rewrite !tally_snoc; cbn.
  - split; [|split].
    + rewrite Hc, int32_add_l. f_equal. lia.
    + rewrite (count_in_flight_insert _ _ _ _ Hlk). cbn. lia.
    + intros j. specialize (Hth j). rewrite !tally_snoc. cbn [is_start is_end].
      destruct (decide (tid = j)) as [<-|Hne].
      * rewrite list_lookup_insert_eq by by eapply lookup_lt_Some.
        rewrite Hlk in Hth. cbn [recorded] in *. rewrite Nat.eqb_refl.
        injection Hth as -> ->. done.
      * rewrite list_lookup_insert_ne by done.
        destruct (Nat.eqb_spec j tid); [congruence|]. rewrite <- Hth. f_equal; lia.
  - split; [|split].
    + rewrite Hc, int32_add_l. f_equal. lia.
    + rewrite (count_in_flight_insert _ _ _ _ Hlk). cbn. lia.
    + intros j. specialize (Hth j). rewrite !tally_snoc. cbn [is_start is_end].
      destruct (decide (tid = j)) as [<-|Hne].
      * rewrite list_lookup_insert_eq by by eapply lookup_lt_Some.
        rewrite Hlk in Hth. cbn [recorded] in *. rewrite Nat.eqb_refl.
        injection Hth as -> ->. done.
      * rewrite list_lookup_insert_ne by done.
        destruct (Nat.eqb_spec j tid); [congruence|]. rewrite <- Hth. f_equal; lia.
Qed.

Lemma Inv_run a0 sched : forall σ σ',
  Inv a0 σ -> run sched σ = Some σ' -> Inv a0 σ'.
Proof.
  induction sched as [|[tid t] rest IH]; intros σ σ' HI Hrun; cbn in Hrun.
  - by injection Hrun as <-.
  - destruct (thread_step tid t σ) as [σ1|] eqn:Hs; [|discriminate].
    eapply IH; [|exact Hrun]. by eapply Inv_step.
Qed.

End Interleavings.

(** The sequential [Serve] is the two steps of a thread, one after the
    other. *)
Lemma Serve_two_steps run s lrw :
  fst (fst (Serve run s lrw)) = decrement (increment s).
Proof. reflexivity. Qed.

(** [Serve] leaves the counter where it found it, however [ServeHTTP] ends. *)
Lemma Serve_restores_activeConns run s lrw :
  -2147483648 <= activeConns s <= 2147483647 ->
  activeConns (fst (fst (Serve run s lrw))) = activeConns s /\
  requests (fst (fst (Serve run s lrw))) = int64 (requests s + 1).
Proof.
  intros Hr. cbn. split; [|reflexivity].
  rewrite int32_add_l. rewrite <- (int32_id (activeConns s)) at 2 by lia.
  f_equal. lia.
Qed.

Lemma run_length sched : forall σ σ',
  Interleaving.run sched σ = Some σ' ->
  length (Interleaving.threads σ') = length (Interleaving.threads σ).
Proof.
  induction sched as [|[tid t] rest IH]; intros σ σ' Hrun; cbn in Hrun.
  - by injection Hrun as <-.
  - unfold Interleaving.thread_step in Hrun.
    destruct (Interleaving.threads σ !! tid) as [[| |t0]|]; try discriminate;
      apply IH in Hrun; cbn in Hrun; by rewrite length_insert in Hrun.
Qed.

Lemma count_in_flight_le_length ths :
  Interleaving.count_in_flight ths <= Z.of_nat (length ths).
Proof.
  unfold Interleaving.count_in_flight.
  pose proof (length_filter (fun p => Is_true (Interleaving.in_flight p)) ths). lia.
Qed.

(** C6: in every interleaving of requests dispatched to a backend whose
    counter starts at 0, at every point at which fewer than 2147483648
    requests are in flight (any number may have been served before),
    ActiveConnections equals the number of [increment] calls minus the
    number of [decrement] calls so far; this difference is the number of
    requests in flight and is not negative; and every request that has
    left [Serve], whether [ServeHTTP] returned (also after a forwarding
    error) or panicked, has recorded exactly one start and one end, a
    request still in flight one start and no end, a request not yet
    started none. *)
Theorem activeConns_counts_in_flight
    (n : nat) (s : simpleServer) (sched : list (nat * Termination))
    (σ : Interleaving.Sys) :
  activeConns s = 0 ->
  Interleaving.run sched (Interleaving.init n s) = Some σ ->
  Interleaving.count_in_flight (Interleaving.threads σ) < 2147483648 ->
  activeConns (Interleaving.srv σ)
    = Interleaving.starts (Interleaving.history σ)
      - Interleaving.ends (Interleaving.history σ) /\
  0 <= Interleaving.starts (Interleaving.history σ)
       - Interleaving.ends (Interleaving.history σ) /\
  Interleaving.starts (Interleaving.history σ) - Interleaving.ends (Interleaving.history σ)
    = Interleaving.count_in_flight (Interleaving.threads σ) /\
  (forall tid t,
     Interleaving.threads σ !! tid = Some (Interleaving.Finished t) ->
     Interleaving.starts_of tid (Interleaving.history σ) = 1 /\
     Interleaving.ends_of tid (Interleaving.history σ) = 1) /\
  (forall tid,
     Interleaving.threads σ !! tid = Some Interleaving.InProxy ->
     Interleaving.starts_of tid (Interleaving.history σ) = 1 /\
     Interleaving.ends_of tid (Interleaving.history σ) = 0) /\
  (forall tid,
     Interleaving.threads σ !! tid = Some Interleaving.AtIncrement ->
     Interleaving.starts_of tid (Interleaving.history σ) = 0 /\
     Interleaving.ends_of tid (Interleaving.history σ) = 0).
Proof.
  intros Ha Hrun Hbound.
  assert (HI : Interleaving.Inv 0 σ).
  { eapply Inv_run; [|exact Hrun]. apply Inv_init. by rewrite Ha. }
  destruct HI as (Hc & Hf & Hth).
  pose proof (count_in_flight_nonneg (Interleaving.threads σ)) as Hnn.
  rewrite Z.add_0_l in Hc.
  split; [|split; [lia|]; split; [exact Hf|]; split; [|split]].
  - rewrite Hc. apply int32_id. lia.
  - intros tid t Hlk. specialize (Hth tid). rewrite Hlk in Hth.
    by injection Hth as -> ->.
  - intros tid Hlk. specialize (Hth tid). rewrite Hlk in Hth.
    by injection Hth as -> ->.
  - intros tid Hlk. specialize (Hth tid). rewrite Hlk in Hth.
    by injection Hth as -> ->.
Qed.

Lemma activeConns_counts_in_flight_witness :
  exists σ,
    Interleaving.run [(0, Completes); (1, Completes); (0, Aborts "panic")]%nat
      (Interleaving.init 2 (backend_at "A" 0 true)) = Some σ /\
    activeConns (Interleaving.srv σ) = 1 /\
    Interleaving.starts_of 0 (Interleaving.history σ) = 1 /\
    Interleaving.ends_of 0 (Interleaving.history σ) = 1.
Proof.
  eexists. split; [reflexivity|].
  assert (Hb : Interleaving.count_in_flight
                 [Interleaving.Finished (Aborts "panic"); Interleaving.InProxy] < 2147483648)
    by (vm_compute; reflexivity).
  pose proof (activeConns_counts_in_flight 2 (backend_at "A" 0 true)
                [(0, Completes); (1, Completes); (0, Aborts "panic")]%nat _
                eq_refl eq_refl Hb) as (Hc & _ & _ & Hfin & _).
  split.
  - exact Hc.
  - apply (Hfin 0%nat (Aborts "panic")). reflexivity.
Defined.

(** The bound on the requests in flight holds in particular when fewer
    than 2147483648 requests are dispatched to the backend altogether. *)
Lemma activeConns_counts_few_requests n s sched σ :
  activeConns s = 0 ->
  Z.of_nat n < 2147483648 ->
  Interleaving.run sched (Interleaving.init n s) = Some σ ->
  activeConns (Interleaving.srv σ)
    = Interleaving.starts (Interleaving.history σ)
      - Interleaving.ends (Interleaving.history σ) /\
  0 <= activeConns (Interleaving.srv σ).
Proof.
  intros Ha Hn Hrun.
  assert (HI : Interleaving.Inv 0 σ).
  { eapply Inv_run; [|exact Hrun]. apply Inv_init. by rewrite Ha. }
  destruct HI as (Hc & Hf & _).
  pose proof (count_in_flight_nonneg (Interleaving.threads σ)) as Hnn.
  pose proof (count_in_flight_le_length (Interleaving.threads σ)) as Hle.
  rewrite (run_length _ _ _ Hrun) in Hle. cbn in Hle. rewrite length_replicate in Hle.
  rewrite Z.add_0_l in Hc.
  assert (Heq : activeConns (Interleaving.srv σ)
                = Interleaving.starts (Interleaving.history σ)
                  - Interleaving.ends (Interleaving.history σ)).
  { rewrite Hc. apply int32_id. lia. }
  split; [exact Heq | lia].
Qed.

(** With fewer than 2147483647 requests in flight the counter is below
    [MaxInt32], the value from which the least-connections scan starts. *)
Lemma activeConns_below_MaxInt32 n s sched σ :
  activeConns s = 0 ->
  Interleaving.run sched (Interleaving.init n s) = Some σ ->
  Interleaving.count_in_flight (Interleaving.threads σ) < 2147483647 ->
  0 <= activeConns (Interleaving.srv σ) < MaxInt32.
Proof.
  intros Ha Hrun Hb.
  assert (HI : Interleaving.Inv 0 σ).
  { eapply Inv_run; [|exact Hrun]. apply Inv_init. by rewrite Ha. }
  destruct HI as (Hc & Hf & _).
  pose proof (count_in_flight_nonneg (Interleaving.threads σ)) as Hnn.
  rewrite Z.add_0_l, int32_id in Hc by lia. unfold MaxInt32. lia.
Qed.

(** ** Dispatcher *)

Lemma fold_lrw_calls cs : forall lrw,
  ResponseWriter (fold_left lrw_call cs lrw) = ResponseWriter lrw ++ cs /\
  ((forall code, CallWriteHeader code ∉ cs) ->
   statusCode (fold_left lrw_call cs lrw) = statusCode lrw).
Proof.
  induction cs as [|c cs IH]; intros lrw; cbn [fold_left].
  - by rewrite app_nil_r.
  - destruct (IH (lrw_call lrw c)) as [Hw Hs]. split.
    + rewrite Hw. destruct c; cbn; by rewrite <- app_assoc.
    + intros Hno. rewrite Hs.
      * destruct c as [code|data]; [|reflexivity].
        exfalso. apply (Hno code). by left.
      * intros code Hin. apply (Hno code). by right.
Qed.

(** When the selector returns the nil interface the dispatcher answers
    503 and touches neither the pool nor the request log. *)
Lemma serveProxy_nil_interface fuel rng run ms req rw w c :
  getNextAvailableSever fuel rng (rrCounter w) (lb w) = (c, Returns Server_nil) ->
  serveProxy fuel rng run ms req rw w
  = (with_rrCounter c w,
     rw ++ [CallWriteHeader 503; CallWrite ("Service unavailable" ++ String.String "010"%char "")],
     Returns tt).
Proof. intros Hsel. unfold serveProxy. rewrite Hsel. reflexivity. Qed.

(** When a backend is selected, what the reverse proxy writes, status
    included, reaches the client's writer unchanged. *)
Lemma serveProxy_passes_through fuel rng run ms req rw w c i s :
  getNextAvailableSever fuel rng (rrCounter w) (lb w)
    = (c, Returns (Server_simple (Some i))) ->
  servers (lb w) !! i = Some s ->
  snd (fst (serveProxy fuel rng run ms req rw w)) = rw ++ calls run.
Proof.
  intros Hsel Hs. unfold serveProxy. rewrite Hsel. cbn. rewrite Hs.
  destruct (fold_lrw_calls (calls run) {| ResponseWriter := rw; statusCode := StatusOK |})
    as [Hw _].
  destruct (ending run); cbn; exact Hw.
Qed.

(** C7 (the code departs from the claim): with least-connections and no
    alive backend the selector returns NONE as a nil [*simpleServer]
    inside a non-nil interface; the test [targetServer == nil] is false,
    no 503 is written, and [targetServer.Address()] dereferences nil. *)
Theorem serveProxy_leastconn_all_dead
    (w : World) (fuel : nat) (rng : nat -> nat) (run : ProxyRun) (ms : Z)
    (req : Request) (rw : list RWCall) :
  algorithm (lb w) = "leastconn"%string ->
  Forall (fun s => isAlive s = false) (servers (lb w)) ->
  exists targetServer,
    getNextAvailableSever fuel rng (rrCounter w) (lb w)
      = (rrCounter w, Returns targetServer) /\
    is_NONE targetServer = true /\
    Server_eq_nil targetServer = false /\
    serveProxy fuel rng run ms req rw w
      = (with_rrCounter (rrCounter w) w, rw, Panics nil_dereference).
Proof.
  intros Ha Hd. exists (Server_simple None).
  assert (Hsel : getNextAvailableSever fuel rng (rrCounter w) (lb w)
                 = (rrCounter w, Returns (Server_simple None))).
  { unfold getNextAvailableSever, getLeastConnServer. rewrite Ha. cbn.
    by rewrite leastConnScan_all_dead. }
  split; [exact Hsel|]. split; [reflexivity|]. split; [reflexivity|].
  unfold serveProxy. rewrite Hsel. reflexivity.
Qed.

Lemma serveProxy_leastconn_all_dead_witness :
  exists targetServer,
    getNextAvailableSever 0 (fun k => k) 0 (pool_dead "leastconn")
      = (0, Returns targetServer) /\
    is_NONE targetServer = true /\
    Server_eq_nil targetServer = false /\
    serveProxy 0 (fun k => k) {| calls := [CallWriteHeader 200]; ending := Completes |} 3
      {| RemoteAddr := "10.0.0.1:4040"; Path := "/" |} []
      {| lb := pool_dead "leastconn"; rrCounter := 0; request_logs := []; requestsTotal := [] |}
    = ({| lb := pool_dead "leastconn"; rrCounter := 0; request_logs := []; requestsTotal := [] |},
       [], Panics nil_dereference).
Proof.
  apply (serveProxy_leastconn_all_dead
    {| lb := pool_dead "leastconn"; rrCounter := 0; request_logs := []; requestsTotal := [] |}
    0 (fun k => k) {| calls := [CallWriteHeader 200]; ending := Completes |} 3
    {| RemoteAddr := "10.0.0.1:4040"; Path := "/" |} []).
  - reflexivity.
  - repeat constructor.
Defined.

(** C10: when a backend is selected and the proxy never calls
    [WriteHeader], the dispatcher reports status 200 to the request log and
    to the request counter if [ServeHTTP] returns; if it panics nothing
    is reported at all. *)
Theorem serveProxy_reports_default_status
    (w : World) (fuel : nat) (rng : nat -> nat) (run : ProxyRun) (ms : Z)
    (req : Request) (rw : list RWCall) (c : Z) (i : nat) (s : simpleServer) :
  getNextAvailableSever fuel rng (rrCounter w) (lb w)
    = (c, Returns (Server_simple (Some i))) ->
  servers (lb w) !! i = Some s ->
  (forall code, CallWriteHeader code ∉ calls run) ->
  request_logs (fst (fst (serveProxy fuel rng run ms req rw w)))
  = request_logs w ++
    match ending run with
    | Completes =>
        [ {| client_ip := RemoteAddr req; path := Path req; backend := addr s;
             response_time_ms := ms; status_code := 200 |} ]
    | Aborts _ => []
    end /\
  requestsTotal (fst (fst (serveProxy fuel rng run ms req rw w)))
  = requestsTotal w ++
    match ending run with
    | Completes =>
        [ {| sample_backend := addr s; sample_algorithm := algorithm (lb w);
             sample_status := 200 |} ]
    | Aborts _ => []
    end.
Proof.
  intros Hsel Hs Hno. unfold serveProxy. rewrite Hsel. cbn. rewrite Hs.
  destruct (fold_lrw_calls (calls run) {| ResponseWriter := rw; statusCode := StatusOK |})
    as [_ Hst].
  specialize (Hst Hno). cbn in Hst.
  destruct (ending run); cbn; rewrite ?Hst, ?app_nil_r; done.
Qed.

Lemma serveProxy_reports_default_status_witness :
  request_logs (fst (fst (serveProxy 0 (fun k => k)
    {| calls := [CallWrite "hello"]; ending := Completes |} 12
    {| RemoteAddr := "10.0.0.1:4040"; Path := "/" |} []
    {| lb := pool_A2_B0_C1; rrCounter := 0; request_logs := []; requestsTotal := [] |})))
  = [ {| client_ip := "10.0.0.1:4040"; path := "/"; backend := "B";
         response_time_ms := 12; status_code := 200 |} ].
Proof.
  refine (proj1 (serveProxy_reports_default_status
    {| lb := pool_A2_B0_C1; rrCounter := 0; request_logs := []; requestsTotal := [] |}
    0 (fun k => k) {| calls := [CallWrite "hello"]; ending := Completes |} 12
    {| RemoteAddr := "10.0.0.1:4040"; Path := "/" |} [] 0 1 (backend_at "B" 0 true) _ _ _)).
  - reflexivity.
  - reflexivity.
  - intros code Hin. apply list_elem_of_singleton in Hin. discriminate.
Defined.

(** ** Start-up *)

Lemma initialiseServers_map url_Parse backends : forall out srvs,
  snd (initialiseServers url_Parse backends out srvs)
  = srvs ++ map (fun a => snd (initialiseServer url_Parse a)) backends.
Proof.
  induction backends as [|a rest IH]; intros out srvs; cbn [initialiseServers map].
  - by rewrite app_nil_r.
  - destruct (initialiseServer url_Parse a) as [o s] eqn:Hi. cbn [snd].
    rewrite IH, <- app_assoc. reflexivity.
Qed.

(** C8 (the code departs from the claim): when [url.Parse] rejects the
    address, [handleErr] prints the error and [initialiseServer] goes on:
    it returns a backend for that address, alive, with a nil proxy
    target; the loop of [main] builds one backend per configured address,
    so start-up neither fails nor drops the entry. *)
Theorem initialiseServer_accepts_malformed
    (url_Parse : string -> URL + string) (a e : string) (backends : list string) :
  url_Parse a = inr e ->
  a ∈ backends ->
  initialiseServer url_Parse a
    = ([e], {| addr := a; proxy := None; activeConns := 0; alive := true; requests := 0 |}) /\
  length (snd (initialiseServers url_Parse backends [] [])) = length backends /\
  {| addr := a; proxy := None; activeConns := 0; alive := true; requests := 0 |}
    ∈ snd (initialiseServers url_Parse backends [] []).
Proof.
  intros He Hin.
  assert (Hi : initialiseServer url_Parse a
               = ([e], {| addr := a; proxy := None; activeConns := 0;
                          alive := true; requests := 0 |})).
  { unfold initialiseServer. rewrite He. reflexivity. }
  split; [exact Hi|]. rewrite initialiseServers_map. cbn [app]. split.
  - apply length_map.
  - apply list_elem_of_fmap. exists a. by rewrite Hi.
Qed.

Lemma initialiseServer_accepts_malformed_witness :
  initialiseServer parse_scheme_check ":9001"
    = (["missing protocol scheme"]%string,
       {| addr := ":9001"; proxy := None; activeConns := 0; alive := true; requests := 0 |}) /\
  length (snd (initialiseServers parse_scheme_check
                 ["http://localhost:9000"; ":9001"]%string [] [])) = 2%nat /\
  {| addr := ":9001"; proxy := None; activeConns := 0; alive := true; requests := 0 |}
    ∈ snd (initialiseServers parse_scheme_check
             ["http://localhost:9000"; ":9001"]%string [] []).
Proof.
  apply (initialiseServer_accepts_malformed parse_scheme_check
           ":9001" "missing protocol scheme" ["http://localhost:9000"; ":9001"]%string).
  - reflexivity.
  - apply list_elem_of_In. right. left. reflexivity.
Defined.

(** The sibling constructor of [internal/proxy] does fail on such an
    address. *)
Lemma NewLoadBalancer_rejects_malformed url_Parse (cfg : list string) a e :
  a ∈ cfg -> url_Parse a = inr e ->
  exists err, proxy.NewLoadBalancer url_Parse cfg = inr err.
Proof.
  intros Hin He. unfold proxy.NewLoadBalancer.
  assert (H : forall acc, exists err, proxy.parseBackends url_Parse cfg acc = inr err).
  { induction cfg as [|u rest IH]; intros acc; [by apply elem_of_nil in Hin|].
    cbn [proxy.parseBackends].
    destruct (url_Parse u) as [serverURL|err] eqn:Hu; [|eauto].
    apply elem_of_cons in Hin as [->|Hin]; [congruence|].
    by apply IH. }
  destruct (H []) as [err ->]. eauto.
Qed.

(** ** Health monitor *)

Lemma checkHealth_alive probe d s :
  isAlive (fst (checkHealth probe d s)) = true <-> probe = ProbeResponse StatusOK.
Proof.
  unfold checkHealth. destruct probe as [err|code]; cbn.
  - split; discriminate.
  - destruct (Z.eqb_spec code StatusOK) as [->|Hne]; cbn; split; try done.
    intros [=]. contradiction.
Qed.

(** C9 as stated fails for a success status other than 200: a probe that
    completes in time with 204 No Content leaves the backend not alive. *)
Lemma checkHealth_204_not_alive :
  spec_success_status 204 = true /\
  isAlive (fst (checkHealth (ProbeResponse 204) 3 (backend_at "A" 0 true))) = false.
Proof. split; reflexivity. Qed.

(** C9 (amended): a backend is alive when it is constructed; after
    [checkHealth] it is alive exactly when the probe returned a response
    (no error, no timeout) with status 200 OK, and not alive otherwise,
    whatever other status the response has; a round of the monitor leaves
    every backend of the pool in the state its own probe dictates. *)
Theorem liveness_follows_probe :
  (forall url_Parse a, isAlive (snd (initialiseServer url_Parse a)) = true) /\
  (forall probe d s,
     isAlive (fst (checkHealth probe d s)) = true <-> probe = ProbeResponse StatusOK) /\
  (forall probe d s,
     isAlive (fst (checkHealth probe d s)) = false <-> probe <> ProbeResponse StatusOK) /\
  (forall probe duration srvs,
     length (healthRound probe duration srvs) = length srvs /\
     forall i s',
       healthRound probe duration srvs !! i = Some s' ->
       (isAlive s' = true <-> probe i = ProbeResponse StatusOK)).
Proof.
  split; [|split; [|split]].
  - intros url_Parse a. unfold initialiseServer. by destruct (url_Parse a).
  - apply checkHealth_alive.
  - intros probe d s. rewrite <- (checkHealth_alive probe d s).
    symmetry. apply not_true_iff_false.
  - intros probe duration srvs. unfold healthRound. split; [apply length_imap|].
    intros i s' Hlk. rewrite list_lookup_imap in Hlk.
    destruct (srvs !! i) as [s|]; [|discriminate]. cbn in Hlk.
    injection Hlk as <-. apply checkHealth_alive.
Qed.

(** * Further properties of the selectors *)

Lemma rrScan_returns_alive srvs total start n : forall i j,
  rrScan srvs total start i n = Returns (Server_simple (Some j)) ->
  exists s, srvs !! j = Some s /\ isAlive s = true.
Proof.
  induction n as [|n IH]; intros i j Hr; cbn [rrScan] in Hr; [discriminate|].
  destruct (_ || _); [discriminate|].
  destruct (srvs !! Z.to_nat (Z.rem (start + i) total)) as [s|] eqn:Hs; [|discriminate].
  destruct (isAlive s) eqn:Hal.
  - injection Hr as <-. eauto.
  - by eapply IH.
Qed.

Lemma getRandomServer_returns_alive lb rng fuel : forall k j,
  getRandomServer fuel rng k lb = Returns (Server_simple (Some j)) ->
  exists s, servers lb !! j = Some s /\ isAlive s = true.
Proof.
  induction fuel as [|fuel IH]; intros k j Hr; cbn [getRandomServer] in Hr; [discriminate|].
  destruct (Intn (rng k) (Z.of_nat (length (servers lb)))) as [x|m|]; try discriminate.
  destruct (servers lb !! Z.to_nat x) as [s|] eqn:Hs; [|discriminate].
  destruct (isAlive s) eqn:Hal.
  - injection Hr as <-. eauto.
  - by eapply IH.
Qed.

Lemma selector_returns_alive fuel rng c lb c' i :
  getNextAvailableSever fuel rng c lb = (c', Returns (Server_simple (Some i))) ->
  exists s, servers lb !! i = Some s /\ isAlive s = true.
Proof.
  unfold getNextAvailableSever.
  destruct (String.eqb (algorithm lb) "roundrobin").
  - unfold getNextRoundRobinServer.
    destruct (_ =? 0); [discriminate|]. destruct (_ =? 0); [discriminate|].
    intros [= _ Hr]. by eapply rrScan_returns_alive.
  - destruct (String.eqb (algorithm lb) "leastconn").
    + unfold getLeastConnServer. intros [= _ Hr].
      destruct (leastConnScan_spec (servers lb) 0%nat None MaxInt32)
        as [(Hn & _) | (k & s & Hk & Hlk & Hal & _)]; [congruence|].
      rewrite Hk in Hr. injection Hr as <-. eauto.
    + intros [= _ Hr]. by eapply getRandomServer_returns_alive.
Qed.

(** X1: whichever algorithm is configured and whatever the cursor, the
    generator and the counters are, a backend that the selector returns
    is a backend of the pool and is alive. *)
Theorem getNextAvailableSever_returns_alive
    (fuel : nat) (rng : nat -> nat) (c c' : Z) (lb : LoadBalancer) (i : nat) :
  getNextAvailableSever fuel rng c lb = (c', Returns (Server_simple (Some i))) ->
  exists s, servers lb !! i = Some s /\ isAlive s = true.
Proof. apply selector_returns_alive. Qed.

Lemma getNextAvailableSever_returns_alive_witness :
  exists s, servers pool_A2_B0_C1 !! 1%nat = Some s /\ isAlive s = true.
Proof.
  apply (getNextAvailableSever_returns_alive 0 (fun k => k) 5 5 pool_A2_B0_C1 1).
  reflexivity.
Defined.

(** A rotation of the positions of a pool visits each position once. *)
Lemma rotation_Permutation (N : nat) (s : Z) :
  (0 < N)%nat -> 0 <= s ->
  (fun j : nat => Z.to_nat ((s + Z.of_nat j) mod Z.of_nat N)) <$> seq 0 N ≡ₚ seq 0 N.
Proof.
  intros HN Hs. apply NoDup_Permutation.
  - apply NoDup_fmap_2_strong; [|apply NoDup_seq].
    intros x y Hx Hy Heq. apply elem_of_seq in Hx, Hy.
    pose proof (Z.mod_pos_bound (s + Z.of_nat x) (Z.of_nat N)) as Hbx.
    pose proof (Z.mod_pos_bound (s + Z.of_nat y) (Z.of_nat N)) as Hby.
    assert (He : (s + Z.of_nat x) mod Z.of_nat N = (s + Z.of_nat y) mod Z.of_nat N) by lia.
    pose proof (Z.div_mod (s + Z.of_nat x) (Z.of_nat N)) as Hdx.
    pose proof (Z.div_mod (s + Z.of_nat y) (Z.of_nat N)) as Hdy.
    assert (Hq : (s + Z.of_nat x) / Z.of_nat N = (s + Z.of_nat y) / Z.of_nat N) by nia.
    rewrite He, Hq in Hdx. lia.
  - apply NoDup_seq.
  - intros x. rewrite list_elem_of_fmap, elem_of_seq. split.
    + intros (j & -> & Hj).
      pose proof (Z.mod_pos_bound (s + Z.of_nat j) (Z.of_nat N)). lia.
    + intros Hx.
      destruct (rrIndex_onto (Z.of_nat N) s x) as (k & Hk & Hkx); [lia | lia |].
      exists (Z.to_nat k). split.
      * rewrite Z2Nat.id by lia. symmetry. exact Hkx.
      * apply elem_of_seq. lia.
Qed.

(** On a pool whose backends are all alive the scan stops at its start. *)
Lemma getNextRoundRobinServer_all_alive c lb :
  0 < Z.of_nat (length (servers lb)) < 2147483648 ->
  -1 <= c < 2147483647 ->
  Forall (fun s => isAlive s = true) (servers lb) ->
  getNextRoundRobinServer c lb
  = (c + 1,
     Returns (Server_simple
                (Some (Z.to_nat ((c + 1) mod Z.of_nat (length (servers lb))))))).
Proof.
  intros Ht Hc Hal. unfold getNextRoundRobinServer.
  destruct (Z.eqb_spec (Z.of_nat (length (servers lb))) 0); [lia|].
  rewrite (int32_id (Z.of_nat _)) by lia. rewrite (int32_id (c + 1)) by lia.
  destruct (Z.eqb_spec (Z.of_nat (length (servers lb))) 0); [lia|].
  f_equal. rewrite Z.rem_mod_nonneg by lia.
  pose proof (Z.mod_pos_bound (c + 1) (Z.of_nat (length (servers lb)))) as Hb.
  destruct (length (servers lb)) as [|m] eqn:Hlen; [lia|].
  cbn [rrScan]. rewrite Z.add_0_r.
  rewrite Z.rem_mod_nonneg by lia. rewrite Z.mod_mod by lia.
  destruct (Z.ltb_spec ((c + 1) mod Z.of_nat (S m)) 0); [lia|].
  destruct (Z.leb_spec (Z.of_nat (S m)) ((c + 1) mod Z.of_nat (S m))); [lia|].
  cbn [orb].
  destruct (lookup_lt_is_Some_2 (servers lb) (Z.to_nat ((c + 1) mod Z.of_nat (S m))))
    as [s Hs]; [lia|].
  rewrite Hs, (proj1 (Forall_lookup _ _) Hal _ _ Hs). reflexivity.
Qed.

Lemma rrTargets_all_alive lb n : forall c,
  0 < Z.of_nat (length (servers lb)) < 2147483648 ->
  -1 <= c -> c + Z.of_nat n <= 2147483647 ->
  Forall (fun s => isAlive s = true) (servers lb) ->
  rrTargets n c lb
  = (fun j : nat =>
       Returns (Server_simple
         (Some (Z.to_nat ((c + 1 + Z.of_nat j) mod Z.of_nat (length (servers lb)))))))
    <$> seq 0 n.
Proof.
  induction n as [|n IH]; intros c Ht Hc Hn Hal; [reflexivity|].
  cbn [rrTargets]. rewrite getNextRoundRobinServer_all_alive by (try done; lia).
  rewrite IH by (try done; lia).
  cbn [seq fmap list_fmap]. rewrite Z.add_0_r. f_equal.
  rewrite <- fmap_S_seq, <- list_fmap_compose.
  apply list_fmap_ext. intros _ j _. cbn.
  replace (c + 1 + 1 + Z.of_nat j) with (c + 1 + Z.of_nat (S j)) by lia. reflexivity.
Qed.

(** X2: on a pool of [N] backends, all alive, [N] consecutive round-robin
    selections never panic and return every backend exactly once, from
    every cursor value [c] with [-1 <= c] and [c + N <= MaxInt32] (the
    cursor is never negative and does not wrap during the [N] calls). *)
Theorem rrTargets_fair (lb : LoadBalancer) (c : Z) :
  0 < Z.of_nat (length (servers lb)) < 2147483648 ->
  -1 <= c -> c + Z.of_nat (length (servers lb)) <= 2147483647 ->
  Forall (fun s => isAlive s = true) (servers lb) ->
  rrTargets (length (servers lb)) c lb
  ≡ₚ (fun i => Returns (Server_simple (Some i))) <$> seq 0 (length (servers lb)).
Proof.
  intros Ht Hc Hn Hal. rewrite rrTargets_all_alive by done.
  rewrite <- (rotation_Permutation (length (servers lb)) (c + 1)) at 2 by lia.
  rewrite <- list_fmap_compose. reflexivity.
Qed.

Lemma rrTargets_fair_witness :
  rrTargets 3 7 (pool_ABC "roundrobin")
  ≡ₚ (fun i => Returns (Server_simple (Some i))) <$> seq 0 3.
Proof.
  apply (rrTargets_fair (pool_ABC "roundrobin") 7).
  - cbn. lia.
  - lia.
  - cbn. lia.
  - repeat constructor.
Defined.

(** X3: while the cursor is in range, round-robin never panics and
    returns the nil interface exactly when no backend of the pool is
    alive. *)
Theorem getNextRoundRobinServer_nil_iff_all_dead (c : Z) (lb : LoadBalancer) :
  0 < Z.of_nat (length (servers lb)) < 2147483648 ->
  -1 <= c < 2147483647 ->
  (exists r, snd (getNextRoundRobinServer c lb) = Returns r) /\
  (snd (getNextRoundRobinServer c lb) = Returns Server_nil
   <-> Forall (fun s => isAlive s = false) (servers lb)).
Proof.
  intros Ht Hc.
  destruct (getNextRoundRobinServer_in_range c lb Ht Hc)
    as (_ & [(k & Hk & Hr & (s & Hs & Hal) & _) | (Hr & Hd)]).
  - split; [eauto|]. rewrite Hr. split; [discriminate|].
    intros Hd. rewrite (proj1 (Forall_lookup _ _) Hd _ _ Hs) in Hal. discriminate.
  - split; [eauto|]. by rewrite Hr.
Qed.

Lemma getNextRoundRobinServer_nil_iff_all_dead_witness :
  (exists r, snd (getNextRoundRobinServer 4 (pool_dead "roundrobin")) = Returns r) /\
  (snd (getNextRoundRobinServer 4 (pool_dead "roundrobin")) = Returns Server_nil
   <-> Forall (fun s => isAlive s = false) (servers (pool_dead "roundrobin"))).
Proof.
  apply (getNextRoundRobinServer_nil_iff_all_dead 4 (pool_dead "roundrobin")).
  - cbn. lia.
  - lia.
Defined.

(** X4: least-connections returns no backend exactly when every alive
    backend of the pool has its counter at [MaxInt32] or above (so, in
    particular, when none is alive). *)
Theorem getLeastConnServer_none_iff (lb : LoadBalancer) :
  getLeastConnServer lb = Server_simple None
  <-> Forall (fun s => isAlive s = true -> MaxInt32 <= activeConns s) (servers lb).
Proof.
  unfold getLeastConnServer.
  destruct (leastConnScan_spec (servers lb) 0%nat None MaxInt32)
    as [(Hr & Hall) | (k & s & Hr & Hk & Hs & Hlt & _)].
  - rewrite Hr. split; [intros _ | done].
    apply Forall_forall. intros s Hin. apply Hall. by apply list_elem_of_In.
  - rewrite Hr. split; [discriminate|].
    intros Hall. exfalso.
    pose proof (proj1 (Forall_lookup _ _) Hall _ _ Hk Hs). lia.
Qed.

(** X5: the random selection returns the first sample that hits an alive
    backend: if the draws [k .. k+n-1] hit backends that are not alive and
    draw [k+n] an alive one, the call returns that one after [n+1]
    iterations. *)
Theorem getRandomServer_first_alive_sample
    (lb : LoadBalancer) (rng : nat -> nat) (n extra : nat) : forall k,
  (forall j, (j < n)%nat ->
     isAlive <$> servers lb !! sampled rng lb (k + j) = Some false) ->
  isAlive <$> servers lb !! sampled rng lb (k + n) = Some true ->
  getRandomServer (S n + extra) rng k lb
  = Returns (Server_simple (Some (sampled rng lb (k + n)))).
Proof.
  induction n as [|n IH]; intros k Hdead Hal.
  - rewrite Nat.add_0_r in *. unfold sampled in *.
    destruct (servers lb !! (rng k mod length (servers lb))%nat) as [s|] eqn:Hs;
      [|discriminate].
    injection Hal as Hal. by eapply getRandomServer_alive_sample.
  - change (S (S n) + extra)%nat with (S (S n + extra)).
    cbn [getRandomServer]. unfold Intn.
    pose proof (Hdead 0%nat ltac:(lia)) as H0. rewrite Nat.add_0_r in H0.
    unfold sampled in H0.
    destruct (servers lb !! (rng k mod length (servers lb))%nat) as [s|] eqn:Hs;
      [|discriminate].
    injection H0 as H0.
    assert (Hlen : (0 < length (servers lb))%nat).
    { apply lookup_lt_Some in Hs. lia. }
    destruct (Z.leb_spec (Z.of_nat (length (servers lb))) 0); [lia|].
    assert (Hj : Z.to_nat (Z.of_nat (rng k) mod Z.of_nat (length (servers lb)))
                 = (rng k mod length (servers lb))%nat).
    { rewrite <- Nat2Z.inj_mod. apply Nat2Z.id. }
    rewrite Hj, Hs, H0.
    rewrite (IH (S k)).
    + replace (S k + n)%nat with (k + S n)%nat by lia. reflexivity.
    + intros j Hjn. replace (S k + j)%nat with (k + S j)%nat by lia. apply Hdead. lia.
    + replace (S k + n)%nat with (k + S n)%nat by lia. exact Hal.
Qed.

Lemma getRandomServer_first_alive_sample_witness :
  getRandomServer (S 1 + 5) (fun j => j)
    0 (newLoadBalancer [backend_at "A" 0 false; backend_at "B" 0 true] "8000" "random")
  = Returns (Server_simple (Some 1%nat)).
Proof.
  apply (getRandomServer_first_alive_sample
           (newLoadBalancer [backend_at "A" 0 false; backend_at "B" 0 true] "8000" "random")
           (fun j => j) 1 5 0).
  - intros [|[|j]] Hj; [reflexivity | lia | lia].
  - reflexivity.
Defined.

(** * The balancer of [internal/proxy] *)

Lemma nextBackend_rotates bs cur :
  bs <> [] -> Z.of_nat (length bs) < 18446744073709551616 ->
  0 <= cur -> cur + 1 < 18446744073709551616 ->
  proxy.nextBackend {| proxy.backends := bs; proxy.current := cur |}
  = ({| proxy.backends := bs; proxy.current := cur + 1 |},
     Returns (bs !! Z.to_nat ((cur + 1) mod Z.of_nat (length bs)))).
Proof.
  intros Hne Hlen Hc Hc1. unfold proxy.nextBackend. cbn [proxy.backends proxy.current].
  destruct (Nat.eqb_spec (length bs) 0) as [H0|_].
  { destruct bs; [done | discriminate]. }
  assert (Hpos : 0 < Z.of_nat (length bs)) by (destruct bs; [done | cbn; lia]).
  unfold proxy.uint64.
  rewrite (Z.mod_small (cur + 1) 18446744073709551616) by lia.
  rewrite (Z.mod_small (Z.of_nat (length bs)) 18446744073709551616) by lia.
  destruct (lookup_lt_is_Some_2 bs (Z.to_nat ((cur + 1) mod Z.of_nat (length bs))))
    as [b Hb].
  { pose proof (Z.mod_pos_bound (cur + 1) (Z.of_nat (length bs))). lia. }
  rewrite Hb. reflexivity.
Qed.

Lemma nextBackends_rotate bs n : forall cur,
  bs <> [] -> Z.of_nat (length bs) < 18446744073709551616 ->
  0 <= cur -> cur + Z.of_nat n < 18446744073709551616 ->
  proxy_handler.nextBackends n {| proxy.backends := bs; proxy.current := cur |}
  = (fun j : nat => Returns (bs !! Z.to_nat ((cur + 1 + Z.of_nat j) mod Z.of_nat (length bs))))
    <$> seq 0 n.
Proof.
  induction n as [|n IH]; intros cur Hne Hlen Hc Hn; [reflexivity|].
  cbn [proxy_handler.nextBackends]. rewrite nextBackend_rotates by (try done; lia).
  cbn [fst snd]. rewrite IH by (try done; lia).
  cbn [seq fmap list_fmap]. rewrite Z.add_0_r. f_equal.
  rewrite <- fmap_S_seq, <- list_fmap_compose.
  apply list_fmap_ext. intros _ j _. cbn.
  replace (cur + 1 + 1 + Z.of_nat j) with (cur + 1 + Z.of_nat (S j)) by lia. reflexivity.
Qed.

(** X6: [nextBackend] never panics on a non-empty pool, and [N]
    consecutive calls on a pool of [N] backends return every backend
    exactly once (as long as the unsigned cursor does not wrap). *)
Theorem nextBackends_fair (l : proxy.LoadBalancer) :
  proxy.backends l <> [] ->
  0 <= proxy.current l ->
  proxy.current l + Z.of_nat (length (proxy.backends l)) < 18446744073709551616 ->
  proxy_handler.nextBackends (length (proxy.backends l)) l
  ≡ₚ (fun b => Returns (Some b)) <$> proxy.backends l.
Proof.
  destruct l as [bs cur]. cbn [proxy.backends proxy.current]. intros Hne Hc Hn.
  rewrite nextBackends_rotate by (try done; lia).
  assert (Hpos : (0 < length bs)%nat) by (destruct bs; [done | cbn; lia]).
  transitivity ((fun i : nat => Returns (bs !! i)) <$> seq 0 (length bs)).
  - rewrite <- (rotation_Permutation (length bs) (cur + 1)) at 2 by lia.
    rewrite <- list_fmap_compose. reflexivity.
  - match goal with |- ?a ≡ₚ ?b => assert (a = b) as ->; [|reflexivity] end.
    apply list_eq. intros i. rewrite !list_lookup_fmap.
    destruct (decide (i < length bs)%nat) as [Hi|Hi].
    + rewrite lookup_seq_lt by done.
      destruct (lookup_lt_is_Some_2 bs i Hi) as [b Hb]. cbn. by rewrite Hb.
    + rewrite lookup_seq_ge by lia. rewrite lookup_ge_None_2 by lia. reflexivity.
Qed.

Lemma nextBackends_fair_witness :
  proxy_handler.nextBackends 2
    {| proxy.backends := [ {| proxy.target := mkURL "http://a" |};
                           {| proxy.target := mkURL "http://b" |} ];
       proxy.current := 4 |}
  ≡ₚ (fun b => Returns (Some b))
       <$> [ {| proxy.target := mkURL "http://a" |}; {| proxy.target := mkURL "http://b" |} ].
Proof.
  apply (nextBackends_fair
    {| proxy.backends := [ {| proxy.target := mkURL "http://a" |};
                           {| proxy.target := mkURL "http://b" |} ];
       proxy.current := 4 |}).
  - discriminate.
  - cbn. lia.
  - cbn. lia.
Defined.

Lemma parseBackends_ok url_Parse cfg : forall acc bs,
  proxy.parseBackends url_Parse cfg acc = inl bs ->
  exists bs', bs = acc ++ bs' /\ length bs' = length cfg /\
    forall i u, cfg !! i = Some u ->
      exists b, bs' !! i = Some b /\ url_Parse u = inl (proxy.target b).
Proof.
  induction cfg as [|u rest IH]; intros acc bs Hp; cbn [proxy.parseBackends] in Hp.
  - injection Hp as <-. exists []. rewrite app_nil_r. repeat split. intros i u Hi. done.
  - destruct (url_Parse u) as [serverURL|err] eqn:Hu; [|discriminate].
    destruct (IH _ _ Hp) as (bs' & -> & Hlen & Hall).
    exists ({| proxy.target := serverURL |} :: bs'). split; [by rewrite <- app_assoc|].
    split; [cbn; lia|].
    intros [|i] u' Hi; cbn in Hi.
    + injection Hi as <-. eexists. split; [reflexivity | exact Hu].
    + by apply Hall.
Qed.

(** X7: when [NewLoadBalancer] succeeds the balancer has one backend for
    every configured URL, in the order of the configuration, each with
    the parsed URL as its target, and its cursor is 0. *)
Theorem NewLoadBalancer_ok
    (url_Parse : string -> URL + string) (cfg : list string) (l : proxy.LoadBalancer) :
  proxy.NewLoadBalancer url_Parse cfg = inl l ->
  proxy.current l = 0 /\
  length (proxy.backends l) = length cfg /\
  forall i u, cfg !! i = Some u ->
    exists b, proxy.backends l !! i = Some b /\ url_Parse u = inl (proxy.target b).
Proof.
  unfold proxy.NewLoadBalancer.
  destruct (proxy.parseBackends url_Parse cfg []) as [bs|err] eqn:Hp; [|discriminate].
  intros [= <-]. cbn [proxy.current proxy.backends].
  destruct (parseBackends_ok _ _ _ _ Hp) as (bs' & -> & Hlen & Hall).
  cbn [app]. auto.
Qed.

Lemma NewLoadBalancer_ok_witness :
  proxy.current {| proxy.backends := [ {| proxy.target := mkURL "http://a:1" |} ];
                   proxy.current := 0 |} = 0 /\
  length (proxy.backends
            {| proxy.backends := [ {| proxy.target := mkURL "http://a:1" |} ];
               proxy.current := 0 |}) = length ["http://a:1"%string] /\
  forall i u, ["http://a:1"%string] !! i = Some u ->
    exists b,
      proxy.backends {| proxy.backends := [ {| proxy.target := mkURL "http://a:1" |} ];
                        proxy.current := 0 |} !! i = Some b /\
      parse_scheme_check u = inl (proxy.target b).
Proof.
  apply (NewLoadBalancer_ok parse_scheme_check ["http://a:1"%string]). reflexivity.
Defined.

Lemma parseBackends_first_error url_Parse good : forall bad rest e acc,
  Forall (fun u => exists x, url_Parse u = inl x) good ->
  url_Parse bad = inr e ->
  proxy.parseBackends url_Parse (good ++ bad :: rest) acc = inr e.
Proof.
  induction good as [|u good IH]; intros bad rest e acc Hgood Hbad; cbn.
  - by rewrite Hbad.
  - apply Forall_cons_1 in Hgood as [(x & Hx) Hgood]. rewrite Hx. by apply IH.
Qed.

(** X8: [NewLoadBalancer] fails with the error of the first URL that does
    not parse; what follows that URL in the configuration is not looked
    at. *)
Theorem NewLoadBalancer_first_error
    (url_Parse : string -> URL + string) (good : list string) (bad : string)
    (rest : list string) (e : string) :
  Forall (fun u => exists x, url_Parse u = inl x) good ->
  url_Parse bad = inr e ->
  proxy.NewLoadBalancer url_Parse (good ++ bad :: rest) = inr e.
Proof.
  intros Hgood Hbad. unfold proxy.NewLoadBalancer.
  by rewrite (parseBackends_first_error url_Parse good bad rest e []).
Qed.

Lemma NewLoadBalancer_first_error_witness :
  proxy.NewLoadBalancer parse_scheme_check (["http://a:1"%string] ++ ":2"%string :: [":3"%string])
  = inr "missing protocol scheme"%string.
Proof.
  apply (NewLoadBalancer_first_error parse_scheme_check
           ["http://a:1"%string] ":2" [":3"%string] "missing protocol scheme").
  - constructor; [|constructor]. eexists. reflexivity.
  - reflexivity.
Defined.

(** X9: the handler of [internal/proxy] answers 503 "No backends
    available" on an empty pool and leaves the cursor alone; on a
    non-empty pool it advances the cursor by one and hands what the
    reverse proxy writes to the client unchanged, ending as the reverse
    proxy ends. *)
Theorem proxy_ServeHTTP_outcome
    (run : ProxyRun) (w : list RWCall) (l : proxy.LoadBalancer) :
  (proxy.backends l = [] ->
   proxy_handler.ServeHTTP run w l
   = (l, w ++ [CallWriteHeader 503;
               CallWrite ("No backends available" ++ String.String "010"%char "")],
      Returns tt)) /\
  (proxy.backends l <> [] ->
   Z.of_nat (length (proxy.backends l)) < 18446744073709551616 ->
   0 <= proxy.current l -> proxy.current l + 1 < 18446744073709551616 ->
   proxy_handler.ServeHTTP run w l
   = ({| proxy.backends := proxy.backends l; proxy.current := proxy.current l + 1 |},
      w ++ calls run,
      match ending run with Completes => Returns tt | Aborts m => Panics m end)).
Proof.
  destruct l as [bs cur]. cbn [proxy.backends proxy.current]. split.
  - intros ->. reflexivity.
  - intros Hne Hlen Hc Hc1. unfold proxy_handler.ServeHTTP.
    rewrite nextBackend_rotates by done.
    destruct (lookup_lt_is_Some_2 bs (Z.to_nat ((cur + 1) mod Z.of_nat (length bs))))
      as [b Hb].
    { assert (0 < Z.of_nat (length bs)) by (destruct bs; [done | cbn; lia]).
      pose proof (Z.mod_pos_bound (cur + 1) (Z.of_nat (length bs))). lia. }
    rewrite Hb. by destruct (ending run).
Qed.

Lemma proxy_ServeHTTP_outcome_witness :
  proxy_handler.ServeHTTP {| calls := [CallWriteHeader 204]; ending := Completes |} []
    {| proxy.backends := [ {| proxy.target := mkURL "http://a" |} ]; proxy.current := 0 |}
  = ({| proxy.backends := [ {| proxy.target := mkURL "http://a" |} ]; proxy.current := 0 + 1 |},
     [] ++ [CallWriteHeader 204], Returns tt).
Proof.
  apply (proj2 (proxy_ServeHTTP_outcome
    {| calls := [CallWriteHeader 204]; ending := Completes |} []
    {| proxy.backends := [ {| proxy.target := mkURL "http://a" |} ]; proxy.current := 0 |})).
  - discriminate.
  - cbn. lia.
  - cbn. lia.
  - cbn. lia.
Defined.

(** * Further properties of the dispatcher *)

Lemma lastWriteHeader_seen cs : forall seen,
  lastWriteHeader cs seen
  = match lastWriteHeader cs None with Some c => Some c | None => seen end.
Proof.
  induction cs as [|[code|data] cs IH]; intros seen; cbn [lastWriteHeader].
  - reflexivity.
  - rewrite (IH (Some code)). by destruct (lastWriteHeader cs None).
  - apply IH.
Qed.

Lemma fold_lrw_status cs : forall lrw,
  statusCode (fold_left lrw_call cs lrw)
  = default (statusCode lrw) (lastWriteHeader cs None).
Proof.
  induction cs as [|[code|data] cs IH]; intros lrw; cbn [fold_left lastWriteHeader].
  - reflexivity.
  - rewrite IH, (lastWriteHeader_seen cs (Some code)). cbn.
    by destruct (lastWriteHeader cs None).
  - rewrite IH. reflexivity.
Qed.

(** X10: for a request that is forwarded and whose [ServeHTTP] returns,
    the status written to the request log and to the request counter is
    the one of the last [WriteHeader] call of the reverse proxy, and 200
    if there was none. *)
Theorem serveProxy_reports_last_status
    (w : World) (fuel : nat) (rng : nat -> nat) (run : ProxyRun) (ms : Z)
    (req : Request) (rw : list RWCall) (c : Z) (i : nat) (s : simpleServer) :
  getNextAvailableSever fuel rng (rrCounter w) (lb w)
    = (c, Returns (Server_simple (Some i))) ->
  servers (lb w) !! i = Some s ->
  ending run = Completes ->
  request_logs (fst (fst (serveProxy fuel rng run ms req rw w)))
  = request_logs w ++
    [ {| client_ip := RemoteAddr req; path := Path req; backend := addr s;
         response_time_ms := ms;
         status_code := default 200 (lastWriteHeader (calls run) None) |} ] /\
  requestsTotal (fst (fst (serveProxy fuel rng run ms req rw w)))
  = requestsTotal w ++
    [ {| sample_backend := addr s; sample_algorithm := algorithm (lb w);
         sample_status := default 200 (lastWriteHeader (calls run) None) |} ].
Proof.
  intros Hsel Hs He. unfold serveProxy. rewrite Hsel. cbn. rewrite Hs. cbn.
  rewrite He. cbn. rewrite fold_lrw_status. done.
Qed.

Lemma serveProxy_reports_last_status_witness :
  request_logs (fst (fst (serveProxy 0 (fun k => k)
    {| calls := [CallWriteHeader 100; CallWriteHeader 404; CallWrite "no"];
       ending := Completes |} 12
    {| RemoteAddr := "10.0.0.1:4040"; Path := "/x" |} []
    {| lb := pool_A2_B0_C1; rrCounter := 0; request_logs := []; requestsTotal := [] |})))
  = [] ++ [ {| client_ip := "10.0.0.1:4040"; path := "/x"; backend := "B";
               response_time_ms := 12; status_code := 404 |} ].
Proof.
  refine (proj1 (serveProxy_reports_last_status
    {| lb := pool_A2_B0_C1; rrCounter := 0; request_logs := []; requestsTotal := [] |}
    0 (fun k => k)
    {| calls := [CallWriteHeader 100; CallWriteHeader 404; CallWrite "no"];
       ending := Completes |} 12
    {| RemoteAddr := "10.0.0.1:4040"; Path := "/x" |} [] 0 1 (backend_at "B" 0 true) _ _ _));
    reflexivity.
Defined.

(** What [serveProxy] does to the pool: nothing, or the backend it
    selected goes through [increment] and [decrement]. *)
Lemma serveProxy_pool fuel rng run ms req rw w :
  servers (lb (fst (fst (serveProxy fuel rng run ms req rw w)))) = servers (lb w) \/
  exists c i s,
    getNextAvailableSever fuel rng (rrCounter w) (lb w)
      = (c, Returns (Server_simple (Some i))) /\
    servers (lb w) !! i = Some s /\
    servers (lb (fst (fst (serveProxy fuel rng run ms req rw w))))
      = <[i := decrement (increment s)]> (servers (lb w)).
Proof.
  unfold serveProxy.
  destruct (getNextAvailableSever fuel rng (rrCounter w) (lb w)) as [c [[|[i|]]|m|]] eqn:Hsel;
    cbn; auto.
  destruct (servers (lb w) !! i) as [s|] eqn:Hs; cbn; [|auto].
  right. exists c, i, s. split; [done|]. split; [done|].
  by destruct (ending run).
Qed.

(** X11: [serveProxy] never adds, removes, renames or revives a backend:
    whatever the request and however it ends, the pool keeps its length
    and every backend its address, its liveness and its proxy target. *)
Theorem serveProxy_keeps_pool
    (w : World) (fuel : nat) (rng : nat -> nat) (run : ProxyRun) (ms : Z)
    (req : Request) (rw : list RWCall) :
  length (servers (lb (fst (fst (serveProxy fuel rng run ms req rw w)))))
    = length (servers (lb w)) /\
  forall j s',
    servers (lb (fst (fst (serveProxy fuel rng run ms req rw w)))) !! j = Some s' ->
    exists s, servers (lb w) !! j = Some s /\
              addr s' = addr s /\ alive s' = alive s /\ proxy s' = proxy s.
Proof.
  destruct (serveProxy_pool fuel rng run ms req rw w) as [-> | (c & i & s & _ & Hs & ->)].
  - split; [done|]. intros j s' Hj. eauto.
  - split; [apply length_insert|].
    intros j s' Hj. destruct (decide (i = j)) as [<-|Hne].
    + rewrite list_lookup_insert_eq in Hj by by eapply lookup_lt_Some.
      injection Hj as <-. eauto.
    + rewrite list_lookup_insert_ne in Hj by done. eauto.
Qed.

(** X12: when the counters of the pool are in the range of [int32], a
    call of [serveProxy] that runs alone leaves ActiveConnections of
    every backend as it found it, whether the forward returned or
    panicked, and adds one to the request count of the backend it
    selected and of no other. *)
Theorem serveProxy_counters
    (w : World) (fuel : nat) (rng : nat -> nat) (run : ProxyRun) (ms : Z)
    (req : Request) (rw : list RWCall) :
  Forall (fun s => -2147483648 <= activeConns s <= 2147483647) (servers (lb w)) ->
  forall j s',
    servers (lb (fst (fst (serveProxy fuel rng run ms req rw w)))) !! j = Some s' ->
    exists s, servers (lb w) !! j = Some s /\
      activeConns s' = activeConns s /\
      ((snd (getNextAvailableSever fuel rng (rrCounter w) (lb w))
          = Returns (Server_simple (Some j)) /\
        requests s' = int64 (requests s + 1))
       \/
       (snd (getNextAvailableSever fuel rng (rrCounter w) (lb w))
          <> Returns (Server_simple (Some j)) /\
        requests s' = requests s)).
Proof.
  intros Hrange j s' Hj.
  destruct (serveProxy_pool fuel rng run ms req rw w)
    as [Heq | (c & i & s & Hsel & Hs & Heq)]; rewrite Heq in Hj.
  - exists s'. split; [done|]. split; [done|]. right. split; [|done].
    intros Hsel. revert Heq. unfold serveProxy.
    destruct (getNextAvailableSever fuel rng (rrCounter w) (lb w)) as [c o].
    cbn in Hsel. subst o. cbn. rewrite Hj. cbn.
    destruct (ending run); cbn; intros Heq.
    + apply (f_equal (fun l => requests <$> l !! j)) in Heq.
      rewrite list_lookup_insert_eq, Hj in Heq by by eapply lookup_lt_Some.
      cbn in Heq. injection Heq as Heq. unfold int64 in Heq.
      pose proof (Z.mod_pos_bound (requests s' + 1 + 9223372036854775808)
                    18446744073709551616).
      pose proof (Z.div_mod (requests s' + 1 + 9223372036854775808)
                    18446744073709551616). lia.
    + apply (f_equal (fun l => requests <$> l !! j)) in Heq.
      rewrite list_lookup_insert_eq, Hj in Heq by by eapply lookup_lt_Some.
      cbn in Heq. injection Heq as Heq. unfold int64 in Heq.
      pose proof (Z.mod_pos_bound (requests s' + 1 + 9223372036854775808)
                    18446744073709551616).
      pose proof (Z.div_mod (requests s' + 1 + 9223372036854775808)
                    18446744073709551616). lia.
  - destruct (decide (i = j)) as [<-|Hne].
    + rewrite list_lookup_insert_eq in Hj by by eapply lookup_lt_Some.
      injection Hj as <-. exists s. split; [done|]. split.
      * cbn. rewrite int32_add_l.
        pose proof (proj1 (Forall_lookup _ _) Hrange _ _ Hs) as Hr. cbn in Hr.
        replace (activeConns s + 1 + -1) with (activeConns s) by lia.
        by apply int32_id.
      * left. rewrite Hsel. done.
    + rewrite list_lookup_insert_ne in Hj by done.
      exists s'. split; [done|]. split; [done|]. right. split; [|done].
      rewrite Hsel. cbn. congruence.
Qed.

Lemma serveProxy_counters_witness :
  exists s,
    servers pool_A2_B0_C1 !! 1%nat = Some s /\
    activeConns (decrement (increment (backend_at "B" 0 true))) = activeConns s /\
    ((snd (getNextAvailableSever 0 (fun k => k) 0 pool_A2_B0_C1)
        = Returns (Server_simple (Some 1%nat)) /\
      requests (decrement (increment (backend_at "B" 0 true))) = int64 (requests s + 1))
     \/
     (snd (getNextAvailableSever 0 (fun k => k) 0 pool_A2_B0_C1)
        <> Returns (Server_simple (Some 1%nat)) /\
      requests (decrement (increment (backend_at "B" 0 true))) = requests s)).
Proof.
  apply (serveProxy_counters
    {| lb := pool_A2_B0_C1; rrCounter := 0; request_logs := []; requestsTotal := [] |}
    0 (fun k => k) {| calls := []; ending := Completes |} 0
    {| RemoteAddr := "c"; Path := "/" |} []).
  - repeat constructor; cbn; lia.
  - reflexivity.
Defined.

(** X13: with round-robin, a cursor in range and no alive backend in the
    pool (the empty pool included) the dispatcher answers 503 "Service
    unavailable"; it forwards nothing, leaves every backend and the
    request log untouched, and only the cursor has moved (not even that on
    the empty pool). *)
Theorem serveProxy_roundrobin_unavailable
    (w : World) (fuel : nat) (rng : nat -> nat) (run : ProxyRun) (ms : Z)
    (req : Request) (rw : list RWCall) :
  algorithm (lb w) = "roundrobin"%string ->
  Forall (fun s => isAlive s = false) (servers (lb w)) ->
  Z.of_nat (length (servers (lb w))) < 2147483648 ->
  -1 <= rrCounter w < 2147483647 ->
  serveProxy fuel rng run ms req rw w
  = (with_rrCounter (if decide (servers (lb w) = []) then rrCounter w else rrCounter w + 1) w,
     rw ++ [CallWriteHeader 503;
            CallWrite ("Service unavailable" ++ String.String "010"%char "")],
     Returns tt).
Proof.
  intros Ha Hd Hlen Hc.
  assert (Hsel : getNextAvailableSever fuel rng (rrCounter w) (lb w)
                 = (if decide (servers (lb w) = []) then rrCounter w else rrCounter w + 1,
                    Returns Server_nil)).
  { unfold getNextAvailableSever. rewrite Ha. cbn.
    destruct (decide (servers (lb w) = [])) as [He|Hne].
    - unfold getNextRoundRobinServer. by rewrite He.
    - assert (Ht : 0 < Z.of_nat (length (servers (lb w))) < 2147483648).
      { destruct (servers (lb w)); [done | cbn in *; lia]. }
      destruct (getNextRoundRobinServer_in_range (rrCounter w) (lb w) Ht Hc)
        as (Hf & [(k & _ & _ & (s & Hs & Hal) & _) | (Hr & _)]).
      + rewrite (proj1 (Forall_lookup _ _) Hd _ _ Hs) in Hal. discriminate.
      + destruct (getNextRoundRobinServer (rrCounter w) (lb w)) as [c' o].
        cbn in Hf, Hr. by subst. }
  by apply serveProxy_nil_interface.
Qed.

Lemma serveProxy_roundrobin_unavailable_witness :
  serveProxy 0 (fun k => k) {| calls := []; ending := Completes |} 3
    {| RemoteAddr := "c"; Path := "/" |} []
    {| lb := pool_dead "roundrobin"; rrCounter := 41; request_logs := []; requestsTotal := [] |}
  = (with_rrCounter
       (if decide (servers (pool_dead "roundrobin") = []) then 41 else 41 + 1)
       {| lb := pool_dead "roundrobin"; rrCounter := 41; request_logs := [];
          requestsTotal := [] |},
     [] ++ [CallWriteHeader 503;
            CallWrite ("Service unavailable" ++ String.String "010"%char "")],
     Returns tt).
Proof.
  apply (serveProxy_roundrobin_unavailable
    {| lb := pool_dead "roundrobin"; rrCounter := 41; request_logs := []; requestsTotal := [] |}).
  - reflexivity.
  - repeat constructor.
  - cbn. lia.
  - cbn. lia.
Defined.

(** * Further properties of the health monitor *)

Lemma checkHealth_fields probe d s :
  addr (fst (checkHealth probe d s)) = addr s /\
  proxy (fst (checkHealth probe d s)) = proxy s /\
  activeConns (fst (checkHealth probe d s)) = activeConns s /\
  requests (fst (checkHealth probe d s)) = requests s /\
  snd (checkHealth probe d s)
  = {| hc_backend := addr s; is_alive := alive (fst (checkHealth probe d s));
       hc_response_time_ms := d |}.
Proof. unfold checkHealth. by destruct (match probe with ProbeError _ => _ | _ => _ end). Qed.

(** X14: a round of health checks changes nothing but liveness: the pool
    keeps its length and every backend its address, proxy target,
    ActiveConnections and request count; and every row written to
    [health_check_logs] carries the address of its backend and the
    liveness that the round has just stored for it. *)
Theorem healthRound_only_liveness
    (probe : nat -> ProbeResult) (duration : nat -> Z) (srvs : list simpleServer) :
  length (healthRound probe duration srvs) = length srvs /\
  (forall i s', healthRound probe duration srvs !! i = Some s' ->
     exists s, srvs !! i = Some s /\ addr s' = addr s /\ proxy s' = proxy s /\
               activeConns s' = activeConns s /\ requests s' = requests s) /\
  healthRoundEvents probe duration srvs
  = imap (fun i s' => {| hc_backend := addr s'; is_alive := alive s';
                         hc_response_time_ms := duration i |})
         (healthRound probe duration srvs).
Proof.
  unfold healthRound, healthRoundEvents. split; [apply length_imap|]. split.
  - intros i s' Hi. rewrite list_lookup_imap in Hi.
    destruct (srvs !! i) as [s|]; [|discriminate]. injection Hi as <-.
    exists s. destruct (checkHealth_fields (probe i) (duration i) s) as (?&?&?&?&_). auto.
  - apply list_eq. intros i. rewrite !list_lookup_imap.
    destruct (srvs !! i) as [s|]; [|done]. cbn.
    destruct (checkHealth_fields (probe i) (duration i) s) as (Ha&_&_&_&->).
    by rewrite Ha.
Qed.

Lemma checkHealth_absorbs p d q d' s :
  fst (checkHealth p d (fst (checkHealth q d' s))) = fst (checkHealth p d s).
Proof.
  unfold checkHealth.
  destruct (match p with ProbeError _ => _ | _ => _ end),
           (match q with ProbeError _ => _ | _ => _ end); reflexivity.
Qed.

Lemma healthRound_absorbs p d q d' srvs :
  healthRound p d (healthRound q d' srvs) = healthRound p d srvs.
Proof.
  unfold healthRound. apply list_eq. intros i. rewrite !list_lookup_imap.
  destruct (srvs !! i) as [s|]; [|done]. cbn. by rewrite checkHealth_absorbs.
Qed.

(** X15: the monitor keeps no history: after any number of rounds the
    pool is what the last round alone makes of the initial pool, so one
    failed probe takes a backend out and one successful probe brings it
    back. *)
Theorem healthRounds_last_round_wins
    (probes : list (nat -> ProbeResult)) (last : nat -> ProbeResult)
    (duration : nat -> Z) (srvs : list simpleServer) :
  healthRounds (probes ++ [last]) duration srvs = healthRound last duration srvs.
Proof.
  revert srvs. induction probes as [|q probes IH]; intros srvs; [reflexivity|].
  cbn [app healthRounds]. rewrite IH. apply healthRound_absorbs.
Qed.

(** X16: health monitor and selector together: after a round of health
    checks, a backend that the selector returns, under any algorithm, is
    one whose probe of that round came back with status 200. *)
Theorem selection_after_healthRound
    (probe : nat -> ProbeResult) (duration : nat -> Z)
    (fuel : nat) (rng : nat -> nat) (c c' : Z) (lb : LoadBalancer) (i : nat) :
  getNextAvailableSever fuel rng c
    {| servers := healthRound probe duration (servers lb);
       port := port lb; algorithm := algorithm lb |}
    = (c', Returns (Server_simple (Some i))) ->
  probe i = ProbeResponse StatusOK.
Proof.
  intros Hsel. apply selector_returns_alive in Hsel as (s' & Hs' & Hal).
  cbn in Hs'. unfold healthRound in Hs'. rewrite list_lookup_imap in Hs'.
  destruct (servers lb !! i) as [s|]; [|discriminate]. injection Hs' as <-.
  by apply checkHealth_alive in Hal.
Qed.

Lemma selection_after_healthRound_witness :
  (fun i => match i with 1%nat => ProbeResponse 200 | _ => ProbeError "refused" end) 1%nat
  = ProbeResponse StatusOK.
Proof.
  apply (selection_after_healthRound
           (fun i => match i with 1%nat => ProbeResponse 200 | _ => ProbeError "refused" end)
           (fun _ => 3) 0 (fun k => k) 0 1 (pool_ABC "roundrobin") 1).
  reflexivity.
Defined.

(** * The test backends *)

Section TestBackends.
Import create_servers.

Lemma digit_of_range c d : digit_of c = Some d -> 0 <= d <= 9.
Proof.
  unfold digit_of. destruct (Z.leb_spec 48 (Z.of_nat (nat_of_ascii c)));
    destruct (Z.leb_spec (Z.of_nat (nat_of_ascii c)) 57); cbn; intros [=]; lia.
Qed.

Lemma digit_of_digit d :
  0 <= d <= 9 -> digit_of (ascii_of_nat (Z.to_nat (48 + d))) = Some d.
Proof.
  intros Hd. unfold digit_of. rewrite nat_ascii_embedding by lia.
  rewrite Z2Nat.id by lia.
  destruct (Z.leb_spec 48 (48 + d)); [|lia].
  destruct (Z.leb_spec (48 + d) 57); [|lia]. cbn. f_equal. lia.
Qed.

Lemma digit_not_sign c d sign :
  digit_of c = Some d -> digit_of sign = None -> Ascii.eqb c sign = false.
Proof. intros Hc Hs. destruct (Ascii.eqb_spec c sign); [congruence | done]. Qed.

Lemma append_nil_l s : String.append EmptyString s = s.
Proof. reflexivity. Qed.

Lemma append_cons c s1 s2 :
  String.append (String c s1) s2 = String c (String.append s1 s2).
Proof. reflexivity. Qed.

Lemma lastIndexFrom_absent s sep : forall i last,
  hasByte sep s = false -> lastIndexFrom s sep i last = last.
Proof.
  induction s as [|c s IH]; intros i last Hs; cbn in *; [done|].
  apply orb_false_iff in Hs as [-> Hs]. by apply IH.
Qed.

Lemma lastIndexFrom_last prefix sep tail : forall i last,
  hasByte sep tail = false ->
  lastIndexFrom (String.append prefix (String sep tail)) sep i last
  = i + Z.of_nat (String.length prefix).
Proof.
  induction prefix as [|c prefix IH]; intros i last Ht;
    rewrite ?append_nil_l, ?append_cons; cbn [lastIndexFrom].
  - rewrite Ascii.eqb_refl, lastIndexFrom_absent by done. cbn. lia.
  - rewrite IH by done. cbn [String.length]. lia.
Qed.

Lemma length_append s1 s2 :
  String.length (String.append s1 s2) = (String.length s1 + String.length s2)%nat.
Proof.
  induction s1 as [|c s1 IH]; rewrite ?append_nil_l, ?append_cons; cbn [String.length];
    [done | by rewrite IH].
Qed.

Lemma sliceFrom_append prefix s :
  sliceFrom (String.length prefix) (String.append prefix s) = s.
Proof.
  induction prefix as [|c prefix IH]; rewrite ?append_nil_l, ?append_cons;
    cbn [String.length sliceFrom]; done.
Qed.

(** The port is read after the last colon and nowhere else. *)
Lemma extractPort_after_last_colon prefix c tail :
  hasByte ":" (String c tail) = false ->
  extractPort (String.append prefix (String ":" (String c tail)))
  = match Atoi (String c tail) with
    | (n, None) => (n, None)
    | (n, Some e) => (n, Some (NotANumber e))
    end.
Proof.
  intros Ht. unfold extractPort, LastIndex.
  rewrite lastIndexFrom_last by done. rewrite length_append. cbn [String.length].
  destruct (Z.eqb_spec (0 + Z.of_nat (String.length prefix)) (-1)); [lia|].
  destruct (Z.leb_spec (Z.of_nat (String.length prefix + S (S (String.length tail))))
                       (0 + Z.of_nat (String.length prefix) + 1)); [lia|].
  cbn [orb].
  replace (Z.to_nat (0 + Z.of_nat (String.length prefix) + 1))
    with (String.length (String.append prefix ":")).
  2:{ rewrite length_append. cbn. lia. }
  replace (String.append prefix (String ":" (String c tail)))
    with (String.append (String.append prefix ":") (String c tail)).
  2:{ clear. induction prefix as [|a prefix IH]; rewrite ?append_nil_l, ?append_cons;
      [done | by rewrite IH]. }
  by rewrite sliceFrom_append.
Qed.

(** X17: [extractPort] reports "invalid url format" for an address
    without a colon and for an address that ends with its last colon, and
    in both cases returns port 0. *)
Theorem extractPort_invalid_format (url : string) :
  (hasByte ":" url = false ->
   extractPort url = (0, Some (InvalidURLFormat url))) /\
  extractPort (String.append url ":")
  = (0, Some (InvalidURLFormat (String.append url ":"))).
Proof.
  split.
  - intros Hc. unfold extractPort, LastIndex. by rewrite lastIndexFrom_absent.
  - unfold extractPort, LastIndex.
    rewrite (lastIndexFrom_last url ":" EmptyString) by done.
    rewrite length_append. cbn [String.length].
    destruct (Z.eqb_spec (0 + Z.of_nat (String.length url)) (-1)); [lia|].
    destruct (Z.leb_spec (Z.of_nat (String.length url + 1))
                         (0 + Z.of_nat (String.length url) + 1)); [done | lia].
Qed.

Lemma extractPort_invalid_format_witness :
  extractPort "localhost" = (0, Some (InvalidURLFormat "localhost")).
Proof. apply (proj1 (extractPort_invalid_format "localhost")). reflexivity. Defined.

Lemma ParseUint_digits_fmtDigits fuel : forall n acc,
  0 <= n <= maxUint64 -> n < 2 ^ Z.of_nat fuel ->
  ParseUint_digits (fmtDigits fuel n acc) 0 = ParseUint_digits acc n.
Proof.
  unfold maxUint64.
  induction fuel as [|fuel IH]; intros n acc Hn Hf.
  - cbn in Hf. assert (n = 0) as -> by lia. reflexivity.
  - cbn [fmtDigits].
    pose proof (Z.mod_pos_bound n 10 ltac:(lia)) as Hm.
    pose proof (Z.div_mod n 10 ltac:(lia)) as Hd.
    destruct (Z.ltb_spec n 10) as [Hlt|Hge].
    + cbn [ParseUint_digits]. rewrite digit_of_digit by lia.
      rewrite Z.mod_small by lia. cbn. rewrite Z.add_0_l. unfold maxUint64.
      destruct (Z.ltb_spec 18446744073709551615 n); [lia | done].
    + rewrite IH.
      * cbn [ParseUint_digits]. rewrite digit_of_digit by lia.
        destruct (Z.leb_spec 1844674407370955162 (n / 10)); [lia|].
        unfold maxUint64.
        destruct (Z.ltb_spec 18446744073709551615 (n / 10 * 10 + n mod 10)); [lia|].
        f_equal. lia.
      * lia.
      * rewrite Nat2Z.inj_succ, Z.pow_succ_r in Hf by lia.
        apply Z.div_lt_upper_bound; lia.
Qed.

Lemma fmtDigits_head fuel : forall n acc,
  0 <= n ->
  exists c rest d, fmtDigits (S fuel) n acc = String c rest /\ digit_of c = Some d.
Proof.
  induction fuel as [|fuel IH]; intros n acc Hn; cbn [fmtDigits].
  - pose proof (Z.mod_pos_bound n 10 ltac:(lia)).
    exists (ascii_of_nat (Z.to_nat (48 + n mod 10))).
    destruct (n <? 10); eexists _, (n mod 10); (split; [done|]); by apply digit_of_digit; lia.
  - destruct (Z.ltb_spec n 10).
    + pose proof (Z.mod_pos_bound n 10 ltac:(lia)).
      eexists _, _, (n mod 10). split; [done|]. apply digit_of_digit. lia.
    + apply (IH (n / 10)). apply Z.div_pos; lia.
Qed.

Lemma fmtDigits_no_colon fuel : forall n acc,
  0 <= n -> hasByte ":" acc = false -> hasByte ":" (fmtDigits fuel n acc) = false.
Proof.
  induction fuel as [|fuel IH]; intros n acc Hn Ha; cbn [fmtDigits]; [done|].
  pose proof (Z.mod_pos_bound n 10 ltac:(lia)) as Hm.
  assert (Hacc : hasByte ":" (String (ascii_of_nat (Z.to_nat (48 + n mod 10))) acc) = false).
  { cbn [hasByte]. rewrite Ha, orb_false_r.
    apply (digit_not_sign _ (n mod 10)); [apply digit_of_digit; lia | reflexivity]. }
  destruct (n <? 10); [done|]. apply IH; [apply Z.div_pos; lia | done].
Qed.

Lemma log2_fuel n : 0 <= n -> n < 2 ^ Z.of_nat (S (Z.to_nat (Z.log2 n))).
Proof.
  intros Hn. rewrite Nat2Z.inj_succ, Z2Nat.id by apply Z.log2_nonneg.
  destruct (Z.eq_dec n 0) as [->|Hne]; [done|].
  apply Z.log2_spec. lia.
Qed.

(** [strconv.Atoi] reads back what [%d] writes. *)
Lemma Atoi_FormatInt p :
  -9223372036854775808 <= p <= 9223372036854775807 ->
  Atoi (FormatInt p) = (p, None).
Proof.
  intros Hp. unfold FormatInt.
  destruct (fmtDigits_head (Z.to_nat (Z.log2 (Z.abs p))) (Z.abs p) EmptyString)
    as (c & rest & d & Hfmt & Hc); [lia|].
  pose proof (ParseUint_digits_fmtDigits (S (Z.to_nat (Z.log2 (Z.abs p)))) (Z.abs p)
                EmptyString) as Hparse.
  specialize (Hparse ltac:(unfold maxUint64; lia) (log2_fuel (Z.abs p) ltac:(lia))).
  change (ParseUint_digits EmptyString (Z.abs p)) with (Z.abs p, @None NumError) in Hparse.
  rewrite Hfmt in Hparse |- *.
  destruct (Z.ltb_spec p 0) as [Hneg|Hpos].
  - unfold Atoi. cbn [Ascii.eqb Bool.eqb orb andb negb].
    unfold ParseUint. rewrite Hparse.
    destruct (Z.ltb_spec 9223372036854775808 (Z.abs p)); [lia|]. f_equal. lia.
  - unfold Atoi.
    rewrite (digit_not_sign c d "-" Hc eq_refl), (digit_not_sign c d "+" Hc eq_refl).
    cbn [orb]. unfold ParseUint. rewrite Hparse. cbn [negb andb].
    destruct (Z.leb_spec 9223372036854775808 (Z.abs p)); [lia|]. f_equal. lia.
Qed.

Lemma FormatInt_shape p :
  exists c rest, FormatInt p = String c rest /\ hasByte ":" (String c rest) = false.
Proof.
  unfold FormatInt.
  destruct (fmtDigits_head (Z.to_nat (Z.log2 (Z.abs p))) (Z.abs p) EmptyString)
    as (c & rest & d & Hfmt & Hc); [lia|].
  pose proof (fmtDigits_no_colon (S (Z.to_nat (Z.log2 (Z.abs p)))) (Z.abs p) EmptyString
                ltac:(lia) eq_refl) as Hnc.
  destruct (p <? 0).
  - eexists _, _. split; [reflexivity|]. cbn [hasByte]. rewrite Hnc. reflexivity.
  - rewrite Hfmt in Hnc |- *. eauto.
Qed.

Lemma extractPort_configured prefix p :
  -9223372036854775808 <= p <= 9223372036854775807 ->
  extractPort (configured prefix p) = (p, None).
Proof.
  intros Hp. unfold configured.
  destruct (FormatInt_shape p) as (c & rest & Hf & Hnc).
  rewrite Hf, extractPort_after_last_colon, <- Hf, Atoi_FormatInt by done. reflexivity.
Qed.

(** X18: round trip between the configuration and the test backends: for
    every port [p] of the range of [int] and every text before the last
    colon (scheme, host), [extractPort] reads from the address
    [prefix:p], with [p] written as [%d] writes it, exactly [p], without
    error. *)
Theorem extractPort_round_trip (prefix : string) (p : Z) :
  -9223372036854775808 <= p <= 9223372036854775807 ->
  extractPort (String.append prefix (String ":" (FormatInt p))) = (p, None).
Proof. apply extractPort_configured. Qed.

Lemma extractPort_round_trip_witness :
  extractPort (String.append "http://localhost" (String ":" (FormatInt 9000))) = (9000, None).
Proof. apply (extractPort_round_trip "http://localhost" 9000). lia. Defined.

Lemma ParseUint_digits_ok s : forall n v,
  ParseUint_digits s n = (v, None) -> allDigits s = true.
Proof.
  induction s as [|c s IH]; intros n v Hp; cbn in *; [done|].
  destruct (digit_of c) as [d|]; [|discriminate].
  destruct (_ <=? n); [discriminate|]. destruct (_ <? _); [discriminate|]. by eapply IH.
Qed.

Lemma ParseUint_digits_range s : forall n v,
  ParseUint_digits s n = (v, Some ErrRange) -> v = maxUint64.
Proof.
  induction s as [|c s IH]; intros n v Hp; cbn in Hp; [discriminate|].
  destruct (digit_of c) as [d|]; [|discriminate].
  destruct (_ <=? n); [by injection Hp|]. destruct (_ <? _); [by injection Hp|].
  by eapply IH.
Qed.

Lemma ParseUint_ok body un :
  ParseUint body = (un, None) -> body <> EmptyString /\ allDigits body = true.
Proof.
  unfold ParseUint. destruct body as [|c rest]; [discriminate|].
  intros Hp. split; [discriminate | by eapply ParseUint_digits_ok].
Qed.

Lemma ParseUint_range body un : ParseUint body = (un, Some ErrRange) -> un = maxUint64.
Proof.
  unfold ParseUint. destruct body; [discriminate|]. apply ParseUint_digits_range.
Qed.

(** What [strconv.Atoi] accepts is well formed. *)
Lemma Atoi_ok_wellFormed c tail n :
  Atoi (String c tail) = (n, None) -> wellFormedPort (String c tail) = true.
Proof.
  unfold Atoi, wellFormedPort. intros Ha.
  destruct (Ascii.eqb c "+" || Ascii.eqb c "-") eqn:Hsign.
  - destruct (ParseUint tail) as [un [[]|]] eqn:Hp; try discriminate.
    + apply ParseUint_range in Hp as ->. destruct (Ascii.eqb c "-"); discriminate.
    + apply ParseUint_ok in Hp as [Hne ->]. cbn [andb].
      destruct tail; [done|]. by rewrite orb_true_r.
  - destruct (ParseUint (String c tail)) as [un [[]|]] eqn:Hp; try discriminate.
    + apply ParseUint_range in Hp as ->. destruct (Ascii.eqb c "-"); discriminate.
    + apply ParseUint_ok in Hp as [_ Hd]. cbn [allDigits] in Hd.
      destruct (digit_of c); [|discriminate]. by rewrite Hd.
Qed.

(** X19: [extractPort] accepts only decimal digits after the last colon,
    at least one, with at most one sign in front: whenever the text after
    the last colon is anything else (a first byte that is neither digit
    nor sign, a sign alone, or any later byte that is not a digit, such as
    the slash of a path) the result is an error of [strconv.Atoi]. *)
Theorem extractPort_accepts_only_digits (prefix : string) (c : ascii) (tail : string) :
  hasByte ":" (String c tail) = false ->
  wellFormedPort (String c tail) = false ->
  exists n e, extractPort (String.append prefix (String ":" (String c tail)))
              = (n, Some (NotANumber e)).
Proof.
  intros Hnc Hnw. rewrite extractPort_after_last_colon by done.
  destruct (Atoi (String c tail)) as [n [e|]] eqn:Ha; [eauto|].
  apply Atoi_ok_wellFormed in Ha. congruence.
Qed.

Lemma extractPort_accepts_only_digits_witness :
  exists n e, extractPort (String.append "http://localhost" (String ":" "x80"))
              = (n, Some (NotANumber e)).
Proof.
  apply (extractPort_accepts_only_digits "http://localhost" "x" "80"); reflexivity.
Defined.

Lemma parsePorts_configured cfg : forall acc,
  Forall (fun '(_, p) => -9223372036854775808 <= p <= 9223372036854775807) cfg ->
  parsePorts (map (fun '(prefix, p) => configured prefix p) cfg) acc
  = Some (acc ++ map snd cfg).
Proof.
  induction cfg as [|[prefix p] cfg IH]; intros acc Hr; cbn [map parsePorts].
  - by rewrite app_nil_r.
  - apply Forall_cons_1 in Hr as [Hp Hr].
    rewrite extractPort_configured, IH by done. by rewrite <- app_assoc.
Qed.

(** X20: [create_servers] starts one test backend for every configured
    address [prefix:p], listening on [localhost:p], in the order of the
    configuration; if the port of one address cannot be read, it starts
    none at all. *)
Theorem create_servers_all_or_nothing (cfg : list (string * Z)) :
  (Forall (fun '(_, p) => -9223372036854775808 <= p <= 9223372036854775807) cfg ->
   create_servers.create_servers (map (fun '(prefix, p) => configured prefix p) cfg)
   = map (fun '(_, p) => String.append "localhost:" (FormatInt p)) cfg) /\
  (forall good bad rest n e,
     extractPort bad = (n, Some e) ->
     create_servers.create_servers (good ++ bad :: rest) = []).
Proof.
  split.
  - intros Hr. unfold create_servers.create_servers.
    rewrite parsePorts_configured by done. cbn [app].
    rewrite map_map. apply map_ext. by intros [prefix p].
  - intros good bad rest n e Hbad. unfold create_servers.create_servers.
    assert (Hnone : forall l acc, parsePorts (l ++ bad :: rest) acc = None).
    { induction l as [|a l IH]; intros acc; cbn.
      - by rewrite Hbad.
      - destruct (extractPort a) as [m [e'|]]; [done | apply IH]. }
    by rewrite Hnone.
Qed.

Lemma create_servers_all_or_nothing_witness :
  create_servers.create_servers
    (map (fun '(prefix, p) => configured prefix p)
         [("http://localhost", 9000); ("http://127.0.0.1", 9001)]%string)
  = map (fun '(_, p) => String.append "localhost:" (FormatInt p))
        [("http://localhost", 9000); ("http://127.0.0.1", 9001)]%string.
Proof.
  apply (proj1 (create_servers_all_or_nothing
                  [("http://localhost", 9000); ("http://127.0.0.1", 9001)]%string)).
  repeat constructor; lia.
Defined.

End TestBackends.

(** * Further properties of the counters under concurrency *)

Lemma int64_id x : -9223372036854775808 <= x <= 9223372036854775807 -> int64 x = x.
Proof. intros H. unfold int64. rewrite Z.mod_small; lia. Qed.

Lemma int64_add_l x y : int64 (int64 x + y) = int64 (x + y).
Proof.
  unfold int64.
  replace ((x + 9223372036854775808) mod 18446744073709551616 - 9223372036854775808 + y
           + 9223372036854775808)
    with ((x + 9223372036854775808) mod 18446744073709551616 + y) by lia.
  replace (x + y + 9223372036854775808) with ((x + 9223372036854775808) + y) by lia.
  f_equal. rewrite Zplus_mod_idemp_l. reflexivity.
Qed.

Lemma count_in_flight_none ths :
  Forall (fun p => Interleaving.in_flight p = false) ths ->
  Interleaving.count_in_flight ths = 0.
Proof.
  unfold Interleaving.count_in_flight. induction 1 as [|p ths Hp _ IH]; [done|].
  rewrite list.filter_cons. rewrite Hp. by destruct (decide _).
Qed.

(** X22: no leak of ActiveConnections: in every interleaving of requests
    on a backend, at every point at which no request is inside
    [ServeHTTP], the counter has the value it had before the requests,
    however many requests there were and whether they returned or
    panicked. *)
Theorem activeConns_restored_when_idle
    (n : nat) (s : simpleServer) (sched : list (nat * Termination))
    (σ : Interleaving.Sys) :
  -2147483648 <= activeConns s <= 2147483647 ->
  Interleaving.run sched (Interleaving.init n s) = Some σ ->
  Forall (fun p => Interleaving.in_flight p = false) (Interleaving.threads σ) ->
  activeConns (Interleaving.srv σ) = activeConns s.
Proof.
  intros Hr Hrun Hidle.
  assert (HI : Interleaving.Inv (activeConns s) σ).
  { eapply Inv_run; [|exact Hrun]. apply Inv_init. symmetry. by apply int32_id. }
  destruct HI as (Hc & Hf & _).
  rewrite Hc, Hf, count_in_flight_none, Z.add_0_r by done. by apply int32_id.
Qed.

Lemma activeConns_restored_when_idle_witness :
  exists σ,
    Interleaving.run [(1, Completes); (0, Completes); (1, Aborts "panic"); (0, Completes)]%nat
      (Interleaving.init 3 (backend_at "A" 5 true)) = Some σ /\
    activeConns (Interleaving.srv σ) = activeConns (backend_at "A" 5 true).
Proof.
  eexists. split; [reflexivity|].
  apply (activeConns_restored_when_idle 3 (backend_at "A" 5 true)
           [(1, Completes); (0, Completes); (1, Aborts "panic"); (0, Completes)]%nat).
  - cbn. lia.
  - reflexivity.
  - repeat constructor.
Defined.

Lemma requests_step r0 s0 tid t σ σ' :
  (requests (Interleaving.srv σ)
     = int64 (r0 + Interleaving.starts (Interleaving.history σ)) /\
   addr (Interleaving.srv σ) = addr s0 /\ alive (Interleaving.srv σ) = alive s0 /\
   proxy (Interleaving.srv σ) = proxy s0) ->
  Interleaving.thread_step tid t σ = Some σ' ->
  requests (Interleaving.srv σ')
    = int64 (r0 + Interleaving.starts (Interleaving.history σ')) /\
  addr (Interleaving.srv σ') = addr s0 /\ alive (Interleaving.srv σ') = alive s0 /\
  proxy (Interleaving.srv σ') = proxy s0.
Proof.
  intros (Hq & Ha & Hl & Hp) Hstep. unfold Interleaving.thread_step in Hstep.
  destruct (Interleaving.threads σ !! tid) as [[| |t0]|]; try discriminate;
    injection Hstep as <-; unfold Interleaving.starts in *; cbn;
    rewrite tally_snoc; cbn; repeat split; try done.
  - rewrite Hq, int64_add_l. f_equal. lia.
  - rewrite Hq. f_equal. lia.
Qed.

(** X23: the request count of a backend counts the dispatches and is
    never decremented: in every interleaving, at every point, it is the
    initial count plus the number of [increment] calls so far (as an
    [int64]); address, liveness and proxy target are not touched. *)
Theorem requests_counts_starts
    (n : nat) (s : simpleServer) (sched : list (nat * Termination))
    (σ : Interleaving.Sys) :
  -9223372036854775808 <= requests s <= 9223372036854775807 ->
  Interleaving.run sched (Interleaving.init n s) = Some σ ->
  requests (Interleaving.srv σ)
    = int64 (requests s + Interleaving.starts (Interleaving.history σ)) /\
  addr (Interleaving.srv σ) = addr s /\ alive (Interleaving.srv σ) = alive s /\
  proxy (Interleaving.srv σ) = proxy s.
Proof.
  intros Hr.
  assert (H0 : requests (Interleaving.srv (Interleaving.init n s))
               = int64 (requests s
                        + Interleaving.starts (Interleaving.history (Interleaving.init n s))) /\
               addr (Interleaving.srv (Interleaving.init n s)) = addr s /\
               alive (Interleaving.srv (Interleaving.init n s)) = alive s /\
               proxy (Interleaving.srv (Interleaving.init n s)) = proxy s).
  { cbn. unfold Interleaving.starts. rewrite tally_nil, Z.add_0_r.
    repeat split. symmetry. by apply int64_id. }
  revert H0. generalize (Interleaving.init n s). revert σ.
  induction sched as [|[tid t] rest IH]; intros σ σ0 H0 Hrun; cbn in Hrun.
  - by injection Hrun as <-.
  - destruct (Interleaving.thread_step tid t σ0) as [σ1|] eqn:Hs; [|discriminate].
    eapply IH; [|exact Hrun]. by eapply requests_step.
Qed.

Lemma requests_counts_starts_witness :
  exists σ,
    Interleaving.run [(1, Completes); (0, Completes); (1, Aborts "panic")]%nat
      (Interleaving.init 3 (backend_at "A" 0 true)) = Some σ /\
    requests (Interleaving.srv σ) = 2.
Proof.
  eexists. split; [reflexivity|].
  refine (proj1 (requests_counts_starts 3 (backend_at "A" 0 true)
           [(1, Completes); (0, Completes); (1, Aborts "panic")]%nat _ _ eq_refl)).
  cbn. lia.
Defined.

(** * The first version of the balancer *)

Lemma v0_getNextAvailableSever_first_draw fuel rng k lb :
  v0.servers lb <> [] ->
  v0.getNextAvailableSever (S fuel) rng k lb
  = Returns (rng k mod length (v0.servers lb))%nat.
Proof.
  intros Hne. cbn [v0.getNextAvailableSever]. unfold Intn.
  assert (Hlen : (0 < length (v0.servers lb))%nat).
  { destruct (v0.servers lb); [done | cbn; lia]. }
  destruct (Z.leb_spec (Z.of_nat (length (v0.servers lb))) 0); [lia|].
  assert (Hj : Z.to_nat (Z.of_nat (rng k) mod Z.of_nat (length (v0.servers lb)))
               = (rng k mod length (v0.servers lb))%nat).
  { rewrite <- Nat2Z.inj_mod. apply Nat2Z.id. }
  rewrite Hj.
  destruct (lookup_lt_is_Some_2 (v0.servers lb) (rng k mod length (v0.servers lb))%nat)
    as [s Hs]; [by apply Nat.mod_upper_bound; lia|].
  by rewrite Hs.
Qed.

(** X24: in the first version every backend counts as alive: on a
    non-empty pool the selection returns after a single draw, with the
    backend that was drawn, and [serveProxy] hands the writes of the
    reverse proxy to the client and ends as it ends; on the empty pool
    the request panics in [rand.Intn(0)] - there is no 503 in this
    version. *)
Theorem v0_serveProxy_outcome
    (fuel : nat) (rng : nat -> nat) (run : ProxyRun) (rw : list RWCall)
    (lb : v0.LoadBalancer) :
  (v0.servers lb <> [] ->
   v0.getNextAvailableSever (S fuel) rng 0 lb
     = Returns (rng 0%nat mod length (v0.servers lb))%nat /\
   v0.serveProxy (S fuel) rng run rw lb
     = (rw ++ calls run,
        match ending run with Completes => Returns tt | Aborts m => Panics m end)) /\
  (v0.servers lb = [] ->
   v0.serveProxy (S fuel) rng run rw lb = (rw, Panics "invalid argument to Intn")).
Proof.
  split.
  - intros Hne. split; [by apply v0_getNextAvailableSever_first_draw|].
    unfold v0.serveProxy. rewrite v0_getNextAvailableSever_first_draw by done.
    by destruct (ending run).
  - intros He. unfold v0.serveProxy. cbn [v0.getNextAvailableSever]. by rewrite He.
Qed.

Lemma v0_serveProxy_outcome_witness :
  v0.getNextAvailableSever (S 0) (fun k => 5%nat) 0
    {| v0.servers := [ {| v0.addr := "http://localhost:9000"; v0.proxy := None |};
                       {| v0.addr := "http://localhost:9001"; v0.proxy := None |} ];
       v0.port := "8000"; v0.algorithm := "roundrobin" |}
    = Returns 1%nat /\
  v0.serveProxy (S 0) (fun k => 5%nat) {| calls := [CallWriteHeader 200]; ending := Completes |} []
    {| v0.servers := [ {| v0.addr := "http://localhost:9000"; v0.proxy := None |};
                       {| v0.addr := "http://localhost:9001"; v0.proxy := None |} ];
       v0.port := "8000"; v0.algorithm := "roundrobin" |}
    = ([] ++ [CallWriteHeader 200], Returns tt).
Proof.
  apply (proj1 (v0_serveProxy_outcome 0 (fun k => 5%nat)
    {| calls := [CallWriteHeader 200]; ending := Completes |} []
    {| v0.servers := [ {| v0.addr := "http://localhost:9000"; v0.proxy := None |};
                       {| v0.addr := "http://localhost:9001"; v0.proxy := None |} ];
       v0.port := "8000"; v0.algorithm := "roundrobin" |})).
  discriminate.
Defined.

(** * The dispatcher as a transparent wrapper, and the scan in range *)

(** X25: when a backend is selected the dispatcher is transparent: the
    calls that the reverse proxy makes on its writer reach the client's
    writer unchanged and in order, nothing is added, and the handler ends
    as [ServeHTTP] ends (a panic passes through the deferred
    [decrement]). *)
Theorem serveProxy_transparent
    (w : World) (fuel : nat) (rng : nat -> nat) (run : ProxyRun) (ms : Z)
    (req : Request) (rw : list RWCall) (c : Z) (i : nat) (s : simpleServer) :
  getNextAvailableSever fuel rng (rrCounter w) (lb w)
    = (c, Returns (Server_simple (Some i))) ->
  servers (lb w) !! i = Some s ->
  snd (fst (serveProxy fuel rng run ms req rw w)) = rw ++ calls run /\
  snd (serveProxy fuel rng run ms req rw w)
  = match ending run with Completes => Returns tt | Aborts m => Panics m end.
Proof.
  intros Hsel Hs. unfold serveProxy. rewrite Hsel. cbn. rewrite Hs.
  destruct (fold_lrw_calls (calls run) {| ResponseWriter := rw; statusCode := StatusOK |})
    as [Hw _].
  destruct (ending run); cbn; split; done.
Qed.

Lemma serveProxy_transparent_witness :
  snd (fst (serveProxy 0 (fun k => k)
    {| calls := [CallWriteHeader 502]; ending := Aborts "abort" |} 12
    {| RemoteAddr := "10.0.0.1:4040"; Path := "/" |} [CallWrite "x"]
    {| lb := pool_A2_B0_C1; rrCounter := 0; request_logs := []; requestsTotal := [] |}))
  = [CallWrite "x"] ++ [CallWriteHeader 502] /\
  snd (serveProxy 0 (fun k => k)
    {| calls := [CallWriteHeader 502]; ending := Aborts "abort" |} 12
    {| RemoteAddr := "10.0.0.1:4040"; Path := "/" |} [CallWrite "x"]
    {| lb := pool_A2_B0_C1; rrCounter := 0; request_logs := []; requestsTotal := [] |})
  = Panics "abort".
Proof.
  apply (serveProxy_transparent
    {| lb := pool_A2_B0_C1; rrCounter := 0; request_logs := []; requestsTotal := [] |}
    0 (fun k => k) {| calls := [CallWriteHeader 502]; ending := Aborts "abort" |} 12
    {| RemoteAddr := "10.0.0.1:4040"; Path := "/" |} [CallWrite "x"] 0 1
    (backend_at "B" 0 true)); reflexivity.
Defined.

(** X26: while the cursor is in range (at least -1 and below [MaxInt32])
    and the pool has fewer than 2147483648 backends, a round-robin
    selection advances the cursor by exactly one and returns the first
    alive backend met when the positions are visited in circular order
    from [cursor mod poolSize], every position before it in that order
    holding a backend that is not alive. *)
Theorem getNextRoundRobinServer_first_alive
    (c : Z) (lb : LoadBalancer) (j : nat) (s : simpleServer) :
  0 < Z.of_nat (length (servers lb)) < 2147483648 ->
  -1 <= c < 2147483647 ->
  servers lb !! j = Some s -> isAlive s = true ->
  fst (getNextRoundRobinServer c lb) = c + 1 /\
  exists k,
    0 <= k < Z.of_nat (length (servers lb)) /\
    snd (getNextRoundRobinServer c lb)
      = Returns (Server_simple
          (Some (rrIndex (Z.of_nat (length (servers lb)))
                         ((c + 1) mod Z.of_nat (length (servers lb))) k))) /\
    (exists s', servers lb !! rrIndex (Z.of_nat (length (servers lb)))
                                 ((c + 1) mod Z.of_nat (length (servers lb))) k = Some s' /\
                isAlive s' = true) /\
    (forall k', 0 <= k' < k ->
       dead_at (servers lb)
         (rrIndex (Z.of_nat (length (servers lb)))
                  ((c + 1) mod Z.of_nat (length (servers lb))) k')).
Proof.
  intros Ht Hc Hj Hal.
  destruct (getNextRoundRobinServer_in_range c lb Ht Hc) as (Hf & [Hfound | (_ & Hd)]).
  - split; [exact Hf | exact Hfound].
  - rewrite (proj1 (Forall_lookup _ _) Hd _ _ Hj) in Hal. discriminate.
Qed.

Lemma getNextRoundRobinServer_first_alive_witness :
  fst (getNextRoundRobinServer 0
         (newLoadBalancer [backend_at "A" 0 true; backend_at "B" 0 false] "8000" "roundrobin"))
  = 0 + 1 /\
  exists k,
    0 <= k < Z.of_nat 2 /\
    snd (getNextRoundRobinServer 0
           (newLoadBalancer [backend_at "A" 0 true; backend_at "B" 0 false] "8000" "roundrobin"))
      = Returns (Server_simple (Some (rrIndex (Z.of_nat 2) ((0 + 1) mod Z.of_nat 2) k))) /\
    (exists s',
        [backend_at "A" 0 true; backend_at "B" 0 false]
          !! rrIndex (Z.of_nat 2) ((0 + 1) mod Z.of_nat 2) k = Some s' /\
        isAlive s' = true) /\
    (forall k', 0 <= k' < k ->
       dead_at [backend_at "A" 0 true; backend_at "B" 0 false]
         (rrIndex (Z.of_nat 2) ((0 + 1) mod Z.of_nat 2) k')).
Proof.
  apply (getNextRoundRobinServer_first_alive 0
           (newLoadBalancer [backend_at "A" 0 true; backend_at "B" 0 false] "8000" "roundrobin")
           0 (backend_at "A" 0 true)).
  - cbn. lia.
  - lia.
  - reflexivity.
  - reflexivity.
Defined.
